(** * AI Things Considered: the daily comic strip pipeline

    A shallow embedding of [execution/ai_things_considered.py] and the
    properties of its selector, prompt synthesizer, panel generator,
    compositor, archive bookkeeping and run orchestrator.

    Conventions of the embedding.
    - A Python [str] is a [string]; a character is its code point, which
      the embedding takes below 256.  [isspace], [lower] and the regular
      expression classes follow CPython on that range.
    - A Python [int] is a [Z].
    - A function that can raise returns an [outcome]; a function with
      effects (requests to the generative service, [time.sleep], files)
      is a computation [M A] over an explicit [world].
    - The generative service, the image decoder, the fonts, the feed, the
      clock, the command line and the output directories are the
      interface [Env]; nothing is assumed about them.
    - An image is the term of the PIL operations that made it; reading
      its pixels ([resize], [paste], [save]) and writing a file succeed.
    - [print] calls and the creation of the directories have no
      counterpart.  Interrupts, which [except Exception] does not catch,
      are not modelled. *)

From Stdlib Require Import ZArith Ascii String List Lia.
From stdpp Require Import base option list strings pretty gmap sorting.

Open Scope Z_scope.

(* ===================================================================== *)
(** * Python values                                                       *)
(* ===================================================================== *)

Module Py.

(** Exceptions the pipeline can meet; all of them derive from Python's
    [Exception]. *)
Inductive exn : Type :=
| ValueError (msg : string)
| RuntimeError (msg : string)
| JSONDecodeError
| IndexError
| KeyError (key : string)
| AttributeError
| TypeError
| UnidentifiedImageError
| FileNotFoundError
| ServiceError (msg : string).

Inductive outcome (A : Type) : Type :=
| Return (a : A)
| Raise (e : exn).
Arguments Return {A} a.
Arguments Raise {A} e.

Definition code (c : ascii) : N := N_of_ascii c.

(** [c.isspace()], which is also the class [\s] of [re] on [str]. *)
Definition isspace (c : ascii) : bool :=
  let n := code c in
  ((9 <=? n) && (n <=? 13) || (28 <=? n) && (n <=? 32)
   || (n =? 133) || (n =? 160))%N.

(** The class [\d] of [re] on [str]. *)
Definition isdigit (c : ascii) : bool :=
  let n := code c in ((48 <=? n) && (n <=? 57))%N.

Definition lower_char (c : ascii) : ascii :=
  let n := code c in
  if ((65 <=? n) && (n <=? 90)
      || (192 <=? n) && (n <=? 222) && negb (n =? 215))%N
  then ascii_of_N (n + 32) else c.

(** [s.lower()] *)
Fixpoint lower (s : string) : string :=
  match s with
  | EmptyString => EmptyString
  | String c s' => String (lower_char c) (lower s')
  end.

Fixpoint lstrip (s : string) : string :=
  match s with
  | EmptyString => EmptyString
  | String c s' => if isspace c then lstrip s' else s
  end.

Fixpoint rstrip (s : string) : string :=
  match s with
  | EmptyString => EmptyString
  | String c s' =>
      match rstrip s' with
      | EmptyString => if isspace c then EmptyString else String c EmptyString
      | r => String c r
      end
  end.

(** [s.strip()] *)
Definition strip (s : string) : string := rstrip (lstrip s).

(** [s.startswith(p)] *)
Definition startswith (s p : string) : bool := String.prefix p s.

(** [str(n)] for an [int]. *)
Definition str (n : Z) : string := pretty n.

(** [l[i]] on a list: a negative index counts from the end, an index
    out of range raises [IndexError]. *)
Definition getitem {A : Type} (l : list A) (i : Z) : outcome A :=
  let n := Z.of_nat (length l) in
  let j := if i <? 0 then i + n else i in
  if (j <? 0) || (n <=? j) then Raise IndexError
  else match l !! Z.to_nat j with
       | Some x => Return x
       | None => Raise IndexError
       end.

(** [[f(x) for x in l]] where [f] can raise. *)
Fixpoint comprehension {A B : Type} (f : A -> outcome B) (l : list A)
  : outcome (list B) :=
  match l with
  | [] => Return []
  | x :: l' =>
      match f x with
      | Raise e => Raise e
      | Return y =>
          match comprehension f l' with
          | Raise e => Raise e
          | Return ys => Return (y :: ys)
          end
      end
  end.

End Py.
Import Py.

(* ===================================================================== *)
(** * Data model                                                          *)
(* ===================================================================== *)

(** A story as [fetch_stories] builds it: a dict with these four keys. *)
Module Story.
Record t : Type := mk {
  title : string;
  description : string;
  link : string;
  published : string
}.
End Story.

(** The response of the image model, as the code reads it:
    [response.candidates[0].content.parts[..].inline_data.data].
    Every level is optional in the client library. *)
Module Gemini.
Record Blob : Type := mkBlob {
  data : option (list Byte.byte);
  mime_type : option string
}.
Record Part : Type := mkPart {
  text : option string;
  inline_data : option Blob
}.
Record Content : Type := mkContent { parts : option (list Part) }.
Record Candidate : Type := mkCandidate { content : option Content }.
Record Response : Type := mkResponse {
  candidates : option (list Candidate)
}.
End Gemini.

(** PIL images, as the terms the pipeline builds: an image is what was
    opened, created, drawn on, pasted on, resized or converted. *)
Module PIL.
Abbreviation color := (Z * Z * Z)%type.
Abbreviation box := (Z * Z * Z * Z)%type.

Inductive Font : Type :=
| TrueType (file : string) (size : Z)
| DefaultFont.

Inductive Image : Type :=
| Opened (w h : Z) (data : list Byte.byte)
| New (w h : Z) (fill : color)
| DrawText (base : Image) (xy : Z * Z) (s : string) (font : Font)
           (fill : color)
| DrawRectangle (base : Image) (xy : box) (outline : color) (stroke : Z)
| Paste (base : Image) (im : Image) (xy : Z * Z)
| Resize (im : Image) (w h : Z)
| ConvertRGB (im : Image).

(** [image.width], [image.height]: drawing and pasting leave the size
    of the image drawn on unchanged. *)
Fixpoint width (im : Image) : Z :=
  match im with
  | Opened w _ _ | New w _ _ | Resize _ w _ => w
  | DrawText base _ _ _ _ | DrawRectangle base _ _ _ | Paste base _ _
  | ConvertRGB base => width base
  end.

Fixpoint height (im : Image) : Z :=
  match im with
  | Opened _ h _ | New _ h _ | Resize _ _ h => h
  | DrawText base _ _ _ _ | DrawRectangle base _ _ _ | Paste base _ _
  | ConvertRGB base => height base
  end.

(** The rectangles drawn on an image, oldest first. *)
Fixpoint rectangles (im : Image) : list (box * color * Z) :=
  match im with
  | DrawRectangle base xy outline stroke =>
      rectangles base ++ [(xy, outline, stroke)]
  | DrawText base _ _ _ _ | Paste base _ _ => rectangles base
  | Opened _ _ _ | New _ _ _ | Resize _ _ _ | ConvertRGB _ => []
  end.

(** The images pasted on an image with their positions, oldest first. *)
Fixpoint pastes (im : Image) : list (Image * (Z * Z)) :=
  match im with
  | Paste base src xy => pastes base ++ [(src, xy)]
  | DrawText base _ _ _ _ | DrawRectangle base _ _ _ => pastes base
  | Opened _ _ _ | New _ _ _ | Resize _ _ _ | ConvertRGB _ => []
  end.
End PIL.
Import PIL.

(** The metadata document of a run. *)
Module Metadata.
Record entry : Type := mkEntry {
  panel : Z;
  title : string;
  summary : string;
  source_url : string
}.
Record t : Type := mk {
  date : string;
  image : string;
  stories : list entry
}.
End Metadata.

(** The archive document: [{"comics": [{"date": .., "image": ..}, ..]}]. *)
Module Archive.
Record entry : Type := mkEntry { date : string; image : string }.
Abbreviation t := (list entry).
End Archive.

(** What a file holds. *)
Inductive file : Type :=
| PNG (im : Image)
| JPEG (im : Image) (quality : Z)
| MetadataJson (m : Metadata.t)
| ArchiveJson (comics : Archive.t)
| OtherFile (raw : string).

(** A path is a directory and a file name in it. *)
Abbreviation path := (string * string)%type.

(** A request to the text model, named by what its prompt is built
    from: the candidate stories for the selection, one story for an
    illustration prompt. *)
Inductive text_request : Type :=
| SelectRequest (stories : list Story.t)
| PromptRequest (story : Story.t).

(** What a run does that can be seen from outside, in order. *)

Inductive event : Type :=
| TextCall (req : text_request)
| ImageCall (prompt : string)
| Sleep (seconds : Z)
| Write (p : path) (content : file).

(** The collaborators of a run.  [generate_text n req] is the [.text] of
    the response to the [n]-th text request, [generate_image n prompt]
    the response to the [n]-th image request; either can raise.
    [identify] is the size [Image.open] finds in encoded bytes, if it
    recognises them; [font_exists] says whether [ImageFont.truetype]
    loads a font file; [strptime_display] is
    [datetime.strptime(s, "%Y-%m-%d").strftime("%B %d, %Y")], [None]
    when parsing raises. *)
Class Env : Type := {
  generate_text : nat -> text_request -> outcome (option string);
  generate_image : nat -> string -> outcome Gemini.Response;
  identify : list Byte.byte -> option (Z * Z);
  font_exists : string -> bool;
  feed_entries : list Story.t;
  argv : list string;
  now_iso : string;
  now_display : string;
  strptime_display : string -> option string;
  WEB_OUTPUT_DIR : string;
  FULLRES_DIR : string;
  TEMP_DIR : string
}.

(** The state a run threads: the files, the requests made so far, and
    the trace of what the run did, in order. *)
Record world : Type := mkWorld {
  fs : gmap path file;
  text_calls : nat;
  image_calls : nat;
  trace : list event
}.

(** ** Computations *)

Definition M (A : Type) : Type := world -> outcome A * world.

Definition ret {A : Type} (a : A) : M A := fun w => (Return a, w).

Definition raise {A : Type} (e : exn) : M A := fun w => (Raise e, w).

Definition bind {A B : Type} (m : M A) (f : A -> M B) : M B :=
  fun w =>
    match m w with
    | (Return a, w') => f a w'
    | (Raise e, w') => (Raise e, w')
    end.

(** [try: body  except Exception as e: handler] *)
Definition try_except {A : Type} (body : M A) (handler : exn -> M A) : M A :=
  fun w =>
    match body w with
    | (Return a, w') => (Return a, w')
    | (Raise e, w') => handler e w'
    end.

Definition lift {A : Type} (o : outcome A) : M A := fun w => (o, w).

Notation "'do' x <- m ; k" := (bind m (fun x => k))
  (at level 10, x name, m at level 100, k at level 200,
   format "'[v' 'do'  x  <-  m ; '/' k ']'").

Definition emit (e : event) : M unit :=
  fun w => (Return tt,
            mkWorld (fs w) (text_calls w) (image_calls w) (trace w ++ [e])).

(** [time.sleep(seconds)] *)
Definition sleep (seconds : Z) : M unit := emit (Sleep seconds).

(** Writing a file: [open(p, "w")], [image.save(p)], [shutil.copy(_, p)]. *)
Definition write_file (p : path) (content : file) : M unit :=
  fun w => (Return tt,
            mkWorld (<[p := content]> (fs w)) (text_calls w) (image_calls w)
                    (trace w ++ [Write p content])).

Definition read_file (p : path) : M (option file) :=
  fun w => (Return (fs w !! p), w).

(** ** Requests to the generative service *)

(** [client.models.generate_content(model="gemini-2.5-flash", ...)] and
    reading [response.text]. *)
Definition text_call `{Env} (req : text_request) : M (option string) :=
  fun w => (generate_text (text_calls w) req,
            mkWorld (fs w) (S (text_calls w)) (image_calls w)
                    (trace w ++ [TextCall req])).

(** [client.models.generate_content(model="gemini-3-pro-image-preview",
    ...)] with the fixed 2:3, 1K, text-and-image configuration. *)
Definition image_call `{Env} (prompt : string) : M Gemini.Response :=
  fun w => (generate_image (image_calls w) prompt,
            mkWorld (fs w) (text_calls w) (S (image_calls w))
                    (trace w ++ [ImageCall prompt])).

(** [Image.open(BytesIO(data))]: it raises when it does not recognise
    the data, and empty data (also what [BytesIO(None)] holds) is never
    recognised. *)
Definition Image_open `{Env} (data : list Byte.byte) : outcome Image :=
  match data with
  | [] => Raise UnidentifiedImageError
  | _ => match identify data with
         | Some (w, h) => Return (Opened w h data)
         | None => Raise UnidentifiedImageError
         end
  end.

(* ===================================================================== *)
(** * Configuration                                                       *)
(* ===================================================================== *)

Definition MAX_RETRIES : Z := 3.
Definition RETRY_BASE_DELAY : Z := 2.
Definition NUM_PANELS : Z := 6.
Definition MIN_PANELS_REQUIRED : Z := 4.
Definition WEB_MAX_WIDTH : Z := 1000.
Definition WEB_QUALITY : Z := 85.

Definition STYLE_PREFIX : string :=
  "Vintage comic panel illustration. Muted earth tone palette - cream, warm brown, dusty blue, sage green, faded ochre. Flat geometric shapes with clean precise linework. Diagrammatic, nostalgic mid-century newspaper illustration aesthetic. Hand-drawn feel with architectural precision.".

(** [l[:n]] *)
Definition slice_to {A : Type} (l : list A) (n : Z) : list A :=
  if n <? 0 then take (length l - Z.to_nat (- n)) l else take (Z.to_nat n) l.

(** [range(a, b)] *)
Definition range (a b : Z) : list Z := seqZ a (b - a).

(* ===================================================================== *)
(** * Selector                                                            *)
(* ===================================================================== *)

Module Selector.

(** The class [[\d,\s]] of the pattern. *)
Definition in_class (c : ascii) : bool :=
  isdigit c || Ascii.eqb c "," || isspace c.

(** The longest run of class characters at the head of [s], and the
    rest of [s]. *)
Fixpoint span_class (s : string) : string * string :=
  match s with
  | EmptyString => (EmptyString, EmptyString)
  | String c s' =>
      if in_class c
      then let (run, rest) := span_class s' in (String c run, rest)
      else (EmptyString, s)
  end.

(** The match of [\[[\d,\s]+\]] that starts at the head of [s].  The
    class holds neither bracket, so the greedy run is the only
    candidate: giving characters back cannot reach a [']']. *)
Definition match_here (s : string) : option string :=
  match s with
  | String c s' =>
      if Ascii.eqb c "["
      then match span_class s' with
           | (String d run, String e _) =>
               if Ascii.eqb e "]"
               then Some (String c (String d run +:+ "]"))
               else None
           | _ => None
           end
      else None
  | EmptyString => None
  end.

(** [re.search(r'\[[\d,\s]+\]', s)]: the leftmost match, as
    [match.group()]. *)
Fixpoint re_search (s : string) : option string :=
  match match_here s with
  | Some m => Some m
  | None =>
      match s with
      | EmptyString => None
      | String _ s' => re_search s'
      end
  end.

(** Whitespace of the JSON grammar: space, tab, line feed, carriage
    return. *)
Definition json_ws (c : ascii) : bool :=
  let n := code c in ((n =? 32) || (n =? 9) || (n =? 10) || (n =? 13))%N.

Definition digit_value (c : ascii) : Z := Z.of_N (code c) - 48.

Inductive jstate : Type :=
| ExpectFirst             (* after the opening bracket *)
| ExpectValue             (* after a comma *)
| InNumber (n : Z)        (* inside a number that starts with 1..9 *)
| AfterValue              (* after a value *)
| Closed.                 (* after the closing bracket *)

(** [json.loads] on the rest of an array of integer literals.  A
    number is [0] or a digit [1..9] followed by digits; a value is
    required after a comma; nothing but whitespace may follow the
    closing bracket. *)
Fixpoint json_array (st : jstate) (acc : list Z) (s : string)
  : outcome (list Z) :=
  match s with
  | EmptyString =>
      match st with
      | Closed => Return (reverse acc)
      | _ => Raise JSONDecodeError
      end
  | String c s' =>
      match st with
      | ExpectFirst =>
          if json_ws c then json_array ExpectFirst acc s'
          else if Ascii.eqb c "]" then json_array Closed acc s'
          else if Ascii.eqb c "0" then json_array AfterValue (0 :: acc) s'
          else if isdigit c then json_array (InNumber (digit_value c)) acc s'
          else Raise JSONDecodeError
      | ExpectValue =>
          if json_ws c then json_array ExpectValue acc s'
          else if Ascii.eqb c "0" then json_array AfterValue (0 :: acc) s'
          else if isdigit c then json_array (InNumber (digit_value c)) acc s'
          else Raise JSONDecodeError
      | InNumber n =>
          if isdigit c
          then json_array (InNumber (10 * n + digit_value c)) acc s'
          else if json_ws c then json_array AfterValue (n :: acc) s'
          else if Ascii.eqb c "," then json_array ExpectValue (n :: acc) s'
          else if Ascii.eqb c "]" then json_array Closed (n :: acc) s'
          else Raise JSONDecodeError
      | AfterValue =>
          if json_ws c then json_array AfterValue acc s'
          else if Ascii.eqb c "," then json_array ExpectValue acc s'
          else if Ascii.eqb c "]" then json_array Closed acc s'
          else Raise JSONDecodeError
      | Closed =>
          if json_ws c then json_array Closed acc s'
          else Raise JSONDecodeError
      end
  end.

(** [json.loads(m)] for a text [m] that the pattern matched: an opening
    bracket, then digits, commas and whitespace, then a closing
    bracket.  Integers are unbounded; the refusal of literals of more
    than 4300 digits by recent interpreters is not modelled. *)
Definition json_loads (m : string) : outcome (list Z) :=
  match m with
  | String c s' =>
      if Ascii.eqb c "[" then json_array ExpectFirst [] s'
      else Raise JSONDecodeError
  | EmptyString => Raise JSONDecodeError
  end.

(** [select_stories(stories)] *)
Definition select_stories `{Env} (stories : list Story.t)
  : M (list Story.t) :=
  do text <- text_call (SelectRequest stories);
  match text with
  | None => raise AttributeError
  | Some text =>
      let response_text := strip text in
      match re_search response_text with
      | Some m =>
          do indices <- lift (json_loads m);
          do selected <- lift (comprehension
                                 (fun i => getitem stories (i - 1))
                                 (slice_to indices NUM_PANELS));
          ret selected
      | None => ret (slice_to stories NUM_PANELS)
      end
  end.

End Selector.
Import Selector.

(* ===================================================================== *)
(** * Prompt synthesizer                                                  *)
(* ===================================================================== *)

(** Lines 136-142: trim the response and make sure the style leads. *)
Definition ensure_style_prefix (response_text : string) : string :=
  let image_prompt := strip response_text in
  if negb (startswith (lower image_prompt) "vintage")
  then STYLE_PREFIX +:+ " " +:+ image_prompt
  else image_prompt.

(** [generate_image_prompt(story)] *)
Definition generate_image_prompt `{Env} (story : Story.t) : M string :=
  do text <- text_call (PromptRequest story);
  match text with
  | None => raise AttributeError
  | Some text => ret (ensure_style_prefix text)
  end.

(* ===================================================================== *)
(** * Panel generator                                                     *)
(* ===================================================================== *)

Module Panel.
Import Gemini.

(** The [for part in ...parts] loop of lines 168-173. *)
Fixpoint scan_parts `{Env} (ps : list Part) : outcome Image :=
  match ps with
  | [] => Raise (ValueError "No image data in response")
  | part :: rest =>
      match inline_data part with
      | Some blob => Image_open (default [] (data blob))
      | None => scan_parts rest
      end
  end.

(** Lines 164-173: what one attempt makes of the response. *)
Definition image_of_response `{Env} (response : Response) : outcome Image :=
  match candidates response with
  | None | Some [] => Raise (ValueError "No candidates in response")
  | Some (c :: _) =>
      match content c with
      | None => Raise AttributeError
      | Some ct =>
          match parts ct with
          | None => Raise TypeError
          | Some ps => scan_parts ps
          end
      end
  end.

(** The body of the [try] of one attempt. *)
Definition attempt_body `{Env} (prompt : string) : M Image :=
  do response <- image_call prompt;
  lift (image_of_response response).

(** The [except Exception] handler of one attempt. *)
Definition on_failure (attempt : Z) : M unit :=
  if attempt <? MAX_RETRIES
  then sleep (RETRY_BASE_DELAY * 2 ^ (attempt - 1))
  else ret tt.

(** The [for attempt in ...] loop: [Some image] is the [return] inside
    the [try], [None] at the end of the list the [return None] after
    the loop. *)
Fixpoint attempts_loop `{Env} (prompt : string) (attempts : list Z)
  : M (option Image) :=
  match attempts with
  | [] => ret None
  | attempt :: rest =>
      do r <- try_except
                (do im <- attempt_body prompt; ret (Some im))
                (fun _ => do _ <- on_failure attempt; ret None);
      match r with
      | Some im => ret (Some im)
      | None => attempts_loop prompt rest
      end
  end.

(** [generate_panel_image(prompt, panel_num)]; [panel_num] only
    appears in what is printed. *)
Definition generate_panel_image `{Env} (prompt : string) (panel_num : Z)
  : M (option Image) :=
  attempts_loop prompt (range 1 (MAX_RETRIES + 1)).

End Panel.
Import Panel.

(* ===================================================================== *)
(** * Compositor                                                          *)
(* ===================================================================== *)

Module Layout.
Definition PANEL_WIDTH : Z := 400.
Definition PANEL_HEIGHT : Z := 600.
Definition COLS : Z := 3.
Definition ROWS : Z := 2.
Definition GUTTER : Z := 12.
Definition BORDER : Z := 3.
Definition HEADER_HEIGHT : Z := 100.
Definition MARGIN : Z := 30.

Definition BG_COLOR : color := (252, 249, 242).
Definition BORDER_COLOR : color := (40, 35, 30).
Definition TEXT_COLOR : color := (40, 35, 30).

Definition strip_width : Z :=
  MARGIN * 2 + COLS * PANEL_WIDTH + (COLS - 1) * GUTTER.
Definition strip_height : Z :=
  MARGIN * 2 + HEADER_HEIGHT + ROWS * PANEL_HEIGHT + (ROWS - 1) * GUTTER.

(** The origin of the cell of slot [i]. *)
Definition cell_x (i : Z) : Z := MARGIN + (i mod COLS) * (PANEL_WIDTH + GUTTER).
Definition cell_y (i : Z) : Z :=
  MARGIN + HEADER_HEIGHT + (i / COLS) * (PANEL_HEIGHT + GUTTER).

(** The rectangle the border of slot [i] is drawn on. *)
Definition border_box (i : Z) : box :=
  (cell_x i - BORDER, cell_y i - BORDER,
   cell_x i + PANEL_WIDTH + BORDER, cell_y i + PANEL_HEIGHT + BORDER).
End Layout.
Import Layout.

(** The [try: truetype ... except: load_default] of lines 225-231: one
    font that does not load makes both fonts the default one. *)
Definition load_fonts `{Env} : Font * Font :=
  if font_exists "Oswald-Bold.ttf" && font_exists "Oswald-Regular.ttf"
  then (TrueType "Oswald-Bold.ttf" 48, TrueType "Oswald-Regular.ttf" 22)
  else (DefaultFont, DefaultFont).

(** The [for i, panel in enumerate(panels)] loop of lines 241-262, from
    index [i] on. *)
Fixpoint place_panels (i : Z) (panels : list (option Image)) (strip : Image)
  : Image :=
  match panels with
  | [] => strip
  | None :: rest => place_panels (i + 1) rest strip
  | Some panel :: rest =>
      let col := i mod COLS in
      let row := i / COLS in
      let x := MARGIN + col * (PANEL_WIDTH + GUTTER) in
      let y := MARGIN + HEADER_HEIGHT + row * (PANEL_HEIGHT + GUTTER) in
      let panel_resized := Resize panel PANEL_WIDTH PANEL_HEIGHT in
      let strip :=
        DrawRectangle strip
          (x - BORDER, y - BORDER,
           x + PANEL_WIDTH + BORDER, y + PANEL_HEIGHT + BORDER)
          BORDER_COLOR BORDER in
      let strip := Paste strip panel_resized (x, y) in
      place_panels (i + 1) rest strip
  end.

(** The canvas with its title and date, before any panel. *)
Definition header `{Env} (date_str : string) : Image :=
  let strip := New strip_width strip_height BG_COLOR in
  let '(title_font, date_font) := load_fonts in
  let strip :=
    DrawText strip (MARGIN, MARGIN) "AI THINGS CONSIDERED" title_font
             TEXT_COLOR in
  DrawText strip (MARGIN, MARGIN + 55) date_str date_font TEXT_COLOR.

(** [compose_comic_strip(panels, date_str)] *)
Definition compose_comic_strip `{Env} (panels : list (option Image))
  (date_str : string) : Image :=
  place_panels 0 panels (header date_str).

(** [optimize_for_web(image)] with its default arguments.  The source
    computes the new height as [int(image.height * (max_width /
    image.width))] in binary floating point; the quotient below is the
    exact value of that product, truncated. *)
Definition optimize_for_web (image : Image) : Image :=
  let max_width := WEB_MAX_WIDTH in
  let image :=
    if width image >? max_width
    then Resize image max_width (height image * max_width / width image)
    else image in
  ConvertRGB image.

(* ===================================================================== *)
(** * Persistence                                                         *)
(* ===================================================================== *)

(** The document [save_metadata] builds. *)
Definition metadata_of (stories : list Story.t) (date_str : string)
  : Metadata.t :=
  Metadata.mk date_str (date_str +:+ ".jpg")
    (imap (fun i s =>
             Metadata.mkEntry (Z.of_nat i + 1) (Story.title s)
               (Story.description s) (Story.link s))
          stories).

(** [save_metadata(stories, date_str)] *)
Definition save_metadata `{Env} (stories : list Story.t) (date_str : string)
  : M Metadata.t :=
  let metadata := metadata_of stories date_str in
  do _ <- write_file (WEB_OUTPUT_DIR, date_str +:+ ".json")
            (MetadataJson metadata);
  do _ <- write_file (WEB_OUTPUT_DIR, "latest.json") (MetadataJson metadata);
  ret metadata.

(** [fnmatch] for a pattern of literal characters and [?]. *)
Fixpoint fnmatch (pattern name : string) : bool :=
  match pattern, name with
  | EmptyString, EmptyString => true
  | String p pattern', String c name' =>
      (Ascii.eqb p "?" || Ascii.eqb p c) && fnmatch pattern' name'
  | _, _ => false
  end.

(** The names of the files of a directory. *)
Definition listdir (dir : string) (files : gmap path file) : list string :=
  omap (fun '(p, _) => if decide (p.1 = dir) then Some p.2 else None)
       (map_to_list files).

Definition name_ge (a b : string) : Prop := String.leb b a = true.

#[global] Instance name_ge_dec (a b : string) : Decision (name_ge a b).
Proof. unfold name_ge. apply _. Defined.

(** [sorted(dir.glob(pattern), reverse=True)], as file names. *)
Definition sorted_glob_desc (dir pattern : string) (files : gmap path file)
  : list string :=
  merge_sort name_ge (filter (fun n => fnmatch pattern n = true)
                             (listdir dir files)).

(** [shutil.copy(src, dst)] *)
Definition copy (src dst : path) : M unit :=
  do content <- read_file src;
  match content with
  | Some c => write_file dst c
  | None => raise FileNotFoundError
  end.

(** [update_latest_images()] *)
Definition update_latest_images `{Env} : M unit :=
  fun w =>
    let comics := sorted_glob_desc WEB_OUTPUT_DIR "????-??-??.jpg" (fs w) in
    (do _ <- match comics !! 0%nat with
             | Some c => copy (WEB_OUTPUT_DIR, c) (WEB_OUTPUT_DIR, "latest-1.jpg")
             | None => ret tt
             end;
     match comics !! 1%nat with
     | Some c => copy (WEB_OUTPUT_DIR, c) (WEB_OUTPUT_DIR, "latest-2.jpg")
     | None => ret tt
     end) w.

(** [update_archive(date_str)].  A missing file stands for an empty
    archive; the document is written only when its date is new.  A file
    that holds a metadata document has no ["comics"] key; any other file
    that is not an archive fails to load. *)
Definition update_archive `{Env} (date_str : string) : M unit :=
  let archive_path := (WEB_OUTPUT_DIR, "archive.json") in
  do existing <- read_file archive_path;
  do comics <- match existing with
               | None => ret []
               | Some (ArchiveJson comics) => ret comics
               | Some (MetadataJson _) => raise (KeyError "comics")
               | Some _ => raise JSONDecodeError
               end;
  let new_entry := Archive.mkEntry date_str (date_str +:+ ".jpg") in
  let existing_dates := Archive.date <$> comics in
  if bool_decide (date_str ∈ existing_dates) then ret tt
  else write_file archive_path (ArchiveJson (new_entry :: comics)).

(* ===================================================================== *)
(** * Run orchestrator                                                    *)
(* ===================================================================== *)

(** [fetch_stories()] *)
Definition fetch_stories `{Env} : M (list Story.t) := ret feed_entries.

(** Step 3 of [main]: one prompt per selected story, in order. *)
Fixpoint generate_prompts `{Env} (stories : list Story.t) : M (list string) :=
  match stories with
  | [] => ret []
  | story :: rest =>
      do prompt <- generate_image_prompt story;
      do prompts <- generate_prompts rest;
      ret (prompt :: prompts)
  end.

(** Step 4 of [main], from index [i] on: one panel per prompt, each
    successful one saved to the scratch directory. *)
Fixpoint generate_panels `{Env} (i : Z) (prompts : list string)
  : M (list (option Image)) :=
  match prompts with
  | [] => ret []
  | prompt :: rest =>
      do panel <- generate_panel_image prompt (i + 1);
      do _ <- match panel with
              | Some im =>
                  write_file (TEMP_DIR, "panel_" +:+ str (i + 1) +:+ ".png")
                             (PNG im)
              | None => ret tt
              end;
      do panels <- generate_panels (i + 1) rest;
      ret (panel :: panels)
  end.

(** [sum(1 for p in panels if p is not None)] *)
Definition successful (panels : list (option Image)) : Z :=
  Z.of_nat (length (filter is_Some panels)).

(** What a run has in hand when panel generation is over. *)
Record generated : Type := mkGenerated {
  today : string;
  today_display : string;
  selected_stories : list Story.t;
  panels : list (option Image)
}.

(** Lines 346-384 of [main]: the date, then steps 1 to 4.  An override
    date that [strptime] rejects raises [ValueError] before anything
    else happens. *)
Definition generate `{Env} : M generated :=
  do dates <- match argv with
              | _ :: today :: _ =>
                  match strptime_display today with
                  | Some display => ret (today, display)
                  | None => raise (ValueError "time data does not match format")
                  end
              | _ => ret (now_iso, now_display)
              end;
  do all_stories <- fetch_stories;
  do selected_stories <- select_stories all_stories;
  do prompts <- generate_prompts selected_stories;
  do panels <- generate_panels 0 prompts;
  ret (mkGenerated dates.1 dates.2 selected_stories panels).

(** Lines 386-431 of [main]: the gate, then steps 5 to 8. *)
Definition publish `{Env} (g : generated) : M Metadata.t :=
  let successful_panels := successful (panels g) in
  if successful_panels <? MIN_PANELS_REQUIRED
  then raise (RuntimeError
                ("Only " +:+ str successful_panels +:+ "/" +:+ str NUM_PANELS
                 +:+ " panels generated. Minimum required: "
                 +:+ str MIN_PANELS_REQUIRED +:+ ". Aborting."))
  else
    let strip := compose_comic_strip (panels g) (today_display g) in
    do _ <- write_file (FULLRES_DIR, today g +:+ ".png") (PNG strip);
    let web_strip := optimize_for_web strip in
    do _ <- write_file (WEB_OUTPUT_DIR, today g +:+ ".jpg")
              (JPEG web_strip WEB_QUALITY);
    do metadata <- save_metadata (selected_stories g) (today g);
    do _ <- update_latest_images;
    do _ <- update_archive (today g);
    ret metadata.

(** [main()] *)
Definition main `{Env} : M Metadata.t :=
  do g <- generate;
  publish g.

(* ===================================================================== *)
(** * Sample runs                                                         *)
(* ===================================================================== *)

Module Sample.
Import Gemini.

Definition story (n : string) : Story.t :=
  Story.mk ("Story " +:+ n) ("About " +:+ n) ("https://npr.example/" +:+ n)
           "Fri, 16 Jan 2026".

Definition stories : list Story.t :=
  story <$> ["1"; "2"; "3"; "4"; "5"; "6"; "7"; "8"].

Definition png_bytes : list Byte.byte :=
  [Byte.x89; Byte.x50; Byte.x4e; Byte.x47].

Definition text_part : Part := mkPart (Some "Here is your panel") None.
Definition image_part : Part :=
  mkPart None (Some (mkBlob (Some png_bytes) (Some "image/png"))).

Definition candidate (ps : list Part) : Candidate :=
  mkCandidate (Some (mkContent (Some ps))).

(** A response with the image in its first candidate. *)
Definition good_response : Response :=
  mkResponse (Some [candidate [text_part; image_part]]).

(** A response with the image in its second candidate only. *)
Definition second_candidate_response : Response :=
  mkResponse (Some [candidate [text_part]; candidate [image_part]]).

(** An environment whose selector answers [selection], whose prompt
    model answers alternately with and without the style, and whose
    image model is [images]. *)
Definition env (selection : string)
  (images : nat -> string -> outcome Response) (args : list string) : Env :=
  {| generate_text n req :=
       match req with
       | SelectRequest _ => Return (Some selection)
       | PromptRequest s =>
           Return (Some (if Nat.even n
                         then "  vintage poster of " +:+ Story.title s
                         else "A lighthouse at dusk  "))
       end;
     generate_image := images;
     identify data := Some (832, 1248);
     font_exists f := true;
     feed_entries := stories;
     argv := args;
     now_iso := "2026-01-16";
     now_display := "January 16, 2026";
     strptime_display s :=
       if String.eqb s "2026-01-17" then Some "January 17, 2026" else None;
     WEB_OUTPUT_DIR := "output";
     FULLRES_DIR := "output";
     TEMP_DIR := ".tmp" |}.

(** The image model fails on every call whose number is in [failing]. *)
Definition images (failing : list nat) (n : nat) (prompt : string)
  : outcome Response :=
  if bool_decide (n ∈ failing) then Raise (ServiceError "503 UNAVAILABLE")
  else Return good_response.

Definition selection : string := "Selected: [3, 1, 2, 5, 4, 6] as asked.".

(** Panel 4 uses up its three attempts; the other five succeed. *)
Definition five_of_six : Env :=
  env selection (images [3; 4; 5]%nat) ["ai_things_considered.py"].

(** Panels 1, 2 and 3 fail for good. *)
Definition three_of_six : Env :=
  env selection (images [0; 1; 2; 3; 4; 5; 6; 7; 8]%nat)
      ["ai_things_considered.py"; "2026-01-17"].

Definition empty_world : world := mkWorld ∅ 0 0 [].

(** What [generate] has in hand in an environment, from the empty
    world. *)
Definition generated_in (e : Env) : generated :=
  match (@generate e empty_world).1 with
  | Return g => g
  | Raise _ => mkGenerated "" "" [] []
  end.

Definition world_at_gate (e : Env) : world := (@generate e empty_world).2.

Definition entry (d : string) : Archive.entry :=
  Archive.mkEntry d (d +:+ ".jpg").

Definition world_with_archive (comics : Archive.t) : world :=
  mkWorld {[ ("output", "archive.json") := ArchiveJson comics ]} 0 0 [].
End Sample.

(* ===================================================================== *)
(** * Vocabulary of the statements                                        *)
(* ===================================================================== *)

(** The world after [calls] more image requests and [events] more events. *)
Definition advance (w : world) (calls : nat) (events : list event) : world :=
  mkWorld (fs w) (text_calls w) (image_calls w + calls) (trace w ++ events).

(** What the attempt made as the [n]-th image request comes to. *)
Definition attempt_result `{Env} (n : nat) (prompt : string) : outcome Image :=
  match generate_image n prompt with
  | Return response => image_of_response response
  | Raise e => Raise e
  end.

Definition failed {A : Type} (o : outcome A) : Prop :=
  match o with Raise _ => True | Return _ => False end.

(** The retry schedule in the words of the specification: [attempts]
    requests, and before attempt [a + 1] a sleep of
    [RETRY_BASE_DELAY * 2^(a-1)] seconds. *)
Definition backoff_trace (prompt : string) (attempts : nat) : list event :=
  concat ((fun a : Z =>
             (if a =? 1 then []
              else [Sleep (RETRY_BASE_DELAY * 2 ^ ((a - 1) - 1))])
             ++ [ImageCall prompt]) <$> seqZ 1 (Z.of_nat attempts)).

(** Every character of [s] is a digit, a comma or whitespace. *)
Fixpoint all_in_class (s : string) : bool :=
  match s with
  | EmptyString => true
  | String c s' => in_class c && all_in_class s'
  end.

(** [m] is an integer-array text in the sense of the pattern: brackets
    around one or more digits, commas and whitespace characters. *)
Definition integer_array_text (m : string) : Prop :=
  exists run,
    m = "[" +:+ run +:+ "]" /\ run <> EmptyString /\ all_in_class run = true.

(** The delays slept in a list of events, in order. *)
Definition sleeps (events : list event) : list Z :=
  omap (fun e => match e with Sleep d => Some d | _ => None end) events.

(** The inline data of the first part that has some. *)
Fixpoint first_inline (ps : list Gemini.Part) : option Gemini.Blob :=
  match ps with
  | [] => None
  | p :: rest =>
      match Gemini.inline_data p with
      | Some blob => Some blob
      | None => first_inline rest
      end
  end.

(** Some candidate of the response has a part with inline data. *)
Definition carries_inline_data (response : Gemini.Response) : bool :=
  existsb (fun c =>
             match Gemini.content c with
             | Some ct =>
                 existsb (fun p => bool_decide (is_Some (Gemini.inline_data p)))
                         (default [] (Gemini.parts ct))
             | None => false
             end)
          (default [] (Gemini.candidates response)).

(** The borders of the slots that hold an image, from index [i] on. *)
Fixpoint borders_of_present (i : Z) (panels : list (option Image))
  : list (box * color * Z) :=
  match panels with
  | [] => []
  | None :: rest => borders_of_present (i + 1) rest
  | Some _ :: rest =>
      (border_box i, BORDER_COLOR, BORDER) :: borders_of_present (i + 1) rest
  end.

(** The images of the slots that hold one, resized to the cell and placed
    at the origin of their cell, from index [i] on. *)
Fixpoint cells_of_present (i : Z) (panels : list (option Image))
  : list (Image * (Z * Z)) :=
  match panels with
  | [] => []
  | None :: rest => cells_of_present (i + 1) rest
  | Some panel :: rest =>
      (Resize panel PANEL_WIDTH PANEL_HEIGHT, (cell_x i, cell_y i))
      :: cells_of_present (i + 1) rest
  end.

(** How many entries of an archive carry the date [d]. *)
Definition entries_for (d : string) (comics : Archive.t) : nat :=
  length (filter (fun e => Archive.date e = d) comics).

(** The archive a world holds: the document, or none for a missing file. *)
Definition holds_archive `{Env} (w : world) (comics : Archive.t) : Prop :=
  fs w !! (WEB_OUTPUT_DIR, "archive.json") = Some (ArchiveJson comics)
  \/ (fs w !! (WEB_OUTPUT_DIR, "archive.json") = None /\ comics = []).

(** The files after the writes of a list of events, in order. *)
Definition replay (events : list event) (files : gmap path file)
  : gmap path file :=
  foldl (fun m e => match e with Write p c => <[p := c]> m | _ => m end)
        files events.

(** From [w] to [w'] the run did [events], and nothing else to the files. *)
Definition run_from (w w' : world) (events : list event) : Prop :=
  trace w' = trace w ++ events /\ fs w' = replay events (fs w).

(** An event that is not a write, or that writes a panel as it was
    decoded (never a composed strip, metadata or an archive) to
    [panel_<k>.png] in the scratch directory. *)
Definition scratch_write `{Env} (e : event) : Prop :=
  match e with
  | Write p (PNG (Opened _ _ _)) =>
      p.1 = TEMP_DIR
      /\ exists k : Z, 1 <= k /\ p.2 = "panel_" +:+ str k +:+ ".png"
  | Write _ _ => False
  | _ => True
  end.

(** Every event of the computation [m] satisfies [P], from any world,
    whether [m] returns or raises. *)
Definition emits {A : Type} (P : event -> Prop) (m : M A) : Prop :=
  forall w, exists events, run_from w (m w).2 events /\ Forall P events.

(** The four files a run writes once it is through the gate, in order:
    the full-resolution strip, the web strip, the dated metadata and the
    latest metadata. *)
Definition dated_writes `{Env} (g : generated) : list event :=
  let strip := compose_comic_strip (panels g) (today_display g) in
  let metadata := metadata_of (selected_stories g) (today g) in
  [ Write (FULLRES_DIR, today g +:+ ".png") (PNG strip);
    Write (WEB_OUTPUT_DIR, today g +:+ ".jpg")
          (JPEG (optimize_for_web strip) WEB_QUALITY);
    Write (WEB_OUTPUT_DIR, today g +:+ ".json") (MetadataJson metadata);
    Write (WEB_OUTPUT_DIR, "latest.json") (MetadataJson metadata) ].

(** The world once those four files are written. *)
Definition after_dated_writes `{Env} (g : generated) (w : world) : world :=
  mkWorld (replay (dated_writes g) (fs w)) (text_calls w) (image_calls w)
          (trace w ++ dated_writes g).

(** An event that is not a write, or that writes one of the two latest
    images. *)
Definition latest_write `{Env} (e : event) : Prop :=
  match e with
  | Write p _ =>
      p = (WEB_OUTPUT_DIR, "latest-1.jpg") \/ p = (WEB_OUTPUT_DIR, "latest-2.jpg")
  | _ => True
  end.

(* ===================================================================== *)
(** * Further vocabulary                                                  *)
(* ===================================================================== *)

(** Every character of [s] is whitespace. *)
Fixpoint all_space (s : string) : bool :=
  match s with
  | EmptyString => true
  | String c s' => isspace c && all_space s'
  end.

(** Two rectangles, as [(x0, y0, x1, y1)] with the bounds included, have
    no pixel in common. *)
Definition disjoint_boxes (a b : box) : Prop :=
  let '(ax0, ay0, ax1, ay1) := a in
  let '(bx0, by0, bx1, by1) := b in
  ax1 < bx0 \/ bx1 < ax0 \/ ay1 < by0 \/ by1 < ay0.

(** A rectangle lies on the canvas of the strip, below the header band. *)
Definition on_canvas_below_header (a : box) : Prop :=
  let '(x0, y0, x1, y1) := a in
  0 <= x0 /\ x0 <= x1 /\ x1 < strip_width
  /\ MARGIN + HEADER_HEIGHT - BORDER <= y0 /\ y0 <= y1 /\ y1 < strip_height.

(** The computation [m] makes no image request and touches no file,
    whether it returns or raises. *)
Definition quiet {A : Type} (m : M A) : Prop :=
  forall w, fs (m w).2 = fs w /\ image_calls (m w).2 = image_calls w.

(** The computation [m] makes no request at all. *)
Definition keeps_calls {A : Type} (m : M A) : Prop :=
  forall w, text_calls (m w).2 = text_calls w
            /\ image_calls (m w).2 = image_calls w.


(** An event that is not an image request, or an image request whose
    prompt begins, case-insensitively, with the style keyword. *)
Definition styled_request (e : event) : Prop :=
  match e with
  | ImageCall prompt => startswith (lower prompt) "vintage" = true
  | _ => True
  end.

(** The world after one archive update per date of [dates], in order:
    what the archive step of successive runs comes to. *)
Definition archive_after `{Env} (dates : list string) (w : world) : world :=
  foldl (fun w d => (update_archive d w).2) w dates.

(** The integers of [l], written in decimal and separated by a comma and
    a space. *)
Fixpoint comma_separated (l : list Z) : string :=
  match l with
  | [] => EmptyString
  | [i] => str i
  | i :: l' => str i +:+ ", " +:+ comma_separated l'
  end.

(** The array the selection prompt asks for, as in its example
    [[3, 7, 1, 12, 5, 9]]. *)
Definition array_text (indices : list Z) : string :=
  "[" +:+ comma_separated indices +:+ "]".

(** Runs used to exercise the statements below. *)
Module Scenario.


(** The text model answers every request with two spaces. *)
Definition blank_answers : Env :=
  {| generate_text n req := Return (Some "  ");
     generate_image := Sample.images [];
     identify data := None;
     font_exists f := true;
     feed_entries := Sample.stories;
     argv := [];
     now_iso := "2026-01-16";
     now_display := "January 16, 2026";
     strptime_display s := None;
     WEB_OUTPUT_DIR := "output";
     FULLRES_DIR := "output";
     TEMP_DIR := ".tmp" |}.

(** A run started with a date that is not one. *)
Definition bad_date : Env :=
  Sample.env Sample.selection (Sample.images [])
             ["ai_things_considered.py"; "16/01/2026"].

(** A world whose [archive.json] was cut short by an earlier crash. *)
Definition truncated_archive : world :=
  mkWorld {[ ("output", "archive.json") := OtherFile "{" ]} 0 0 [].

End Scenario.

(* ===================================================================== *)
(** * Proofs: prompt synthesizer                                          *)
(* ===================================================================== *)

Ltac run_m :=
  unfold bind, ret, raise, lift, try_except, emit, sleep, write_file,
    read_file, text_call, image_call in *; simpl in *.

Lemma lower_app (a b : string) : lower (a +:+ b) = lower a +:+ lower b.
Proof. induction a as [|c a IH]; simpl; [reflexivity | now rewrite IH]. Qed.

Lemma styled_starts_with_keyword (rest : string) :
  startswith (lower (STYLE_PREFIX +:+ " " +:+ rest)) "vintage" = true.
Proof. rewrite lower_app. reflexivity. Qed.

Lemma ensure_style_prefix_spec (text : string) :
  ensure_style_prefix text =
    (if startswith (lower (strip text)) "vintage" then strip text
     else STYLE_PREFIX +:+ " " +:+ strip text)
  /\ startswith (lower (ensure_style_prefix text)) "vintage" = true.
Proof.
  unfold ensure_style_prefix.
  destruct (startswith (lower (strip text)) "vintage") eqn:E; cbn [negb].
  - split; [reflexivity | exact E].
  - split; [reflexivity | apply styled_starts_with_keyword].
Qed.

(** C8.  When the text model answers [text], the prompt synthesizer
    returns the trimmed answer if that already begins, case-insensitively,
    with the style keyword, and otherwise the canonical style prefix,
    verbatim, then a space, then the trimmed answer.  Either way the
    result begins case-insensitively with the style keyword. *)
Theorem generate_image_prompt_style `{Env} (story : Story.t) (text : string)
  (w : world) :
  generate_text (text_calls w) (PromptRequest story) = Return (Some text) ->
  exists w',
    generate_image_prompt story w
    = (Return (if startswith (lower (strip text)) "vintage" then strip text
               else STYLE_PREFIX +:+ " " +:+ strip text), w')
    /\ forall p, (generate_image_prompt story w).1 = Return p ->
                 startswith (lower p) "vintage" = true.
Proof.
  intros Hanswer. unfold generate_image_prompt. run_m. rewrite Hanswer.
  destruct (ensure_style_prefix_spec text) as [Heq Hkey].
  eexists. split.
  - rewrite Heq. reflexivity.
  - simpl. intros p [= <-]. exact Hkey.
Qed.

Lemma generate_image_prompt_style_witness :
  @generate_text Sample.five_of_six 1%nat (PromptRequest (Sample.story "3"))
  = Return (Some "A lighthouse at dusk  ")
  /\ exists w',
       @generate_image_prompt Sample.five_of_six (Sample.story "3")
         (mkWorld ∅ 1 0 [])
       = (Return (STYLE_PREFIX +:+ " " +:+ "A lighthouse at dusk"), w').
Proof.
  split; [reflexivity |].
  destruct (@generate_image_prompt_style Sample.five_of_six (Sample.story "3")
              "A lighthouse at dusk  " (mkWorld ∅ 1 0 []) eq_refl)
    as [w' [Hrun _]].
  exists w'. exact Hrun.
Defined.

(* ===================================================================== *)
(** * Proofs: panel generator                                             *)
(* ===================================================================== *)

Lemma scan_parts_first_inline `{Env} (ps : list Gemini.Part) :
  scan_parts ps =
    match first_inline ps with
    | Some blob => Image_open (default [] (Gemini.data blob))
    | None => Raise (ValueError "No image data in response")
    end.
Proof.
  induction ps as [|p ps IH]; simpl; [reflexivity |].
  destruct (Gemini.inline_data p); [reflexivity | exact IH].
Qed.

(** Parts after the first one with inline data play no role. *)
Lemma scan_parts_ignores_rest `{Env} (before after : list Gemini.Part)
  (p : Gemini.Part) (blob : Gemini.Blob) :
  first_inline before = None ->
  Gemini.inline_data p = Some blob ->
  scan_parts (before ++ p :: after) = Image_open (default [] (Gemini.data blob)).
Proof.
  intros Hnone Hp. induction before as [|q before IH]; simpl in *.
  - now rewrite Hp.
  - destruct (Gemini.inline_data q); [discriminate | auto].
Qed.

Lemma attempt_body_result `{Env} (prompt : string) (w : world) :
  attempt_body prompt w
  = (attempt_result (image_calls w) prompt, advance w 1 [ImageCall prompt]).
Proof.
  unfold attempt_body, attempt_result, advance. run_m.
  rewrite Nat.add_1_r. destruct (generate_image (image_calls w) prompt);
    reflexivity.
Qed.

(** C9, as the code has it.  An attempt succeeds with image [im] exactly
    when the request returns a response whose FIRST candidate has content
    parts of which one carries inline data, and the first such part
    decodes to [im]; other candidates and later parts are not looked at. *)
Theorem attempt_succeeds_iff `{Env} (prompt : string) (w : world)
  (im : Image) :
  (attempt_body prompt w).1 = Return im <->
  exists response c cs ct ps blob,
    generate_image (image_calls w) prompt = Return response
    /\ Gemini.candidates response = Some (c :: cs)
    /\ Gemini.content c = Some ct
    /\ Gemini.parts ct = Some ps
    /\ first_inline ps = Some blob
    /\ Image_open (default [] (Gemini.data blob)) = Return im.
Proof.
  rewrite attempt_body_result. unfold attempt_result. simpl. split.
  - destruct (generate_image (image_calls w) prompt) as [response|e] eqn:Hcall;
      [| discriminate].
    unfold image_of_response.
    destruct (Gemini.candidates response) as [[|c cs]|] eqn:Hcs;
      try discriminate.
    destruct (Gemini.content c) as [ct|] eqn:Hct; [| discriminate].
    destruct (Gemini.parts ct) as [ps|] eqn:Hps; [| discriminate].
    rewrite scan_parts_first_inline.
    destruct (first_inline ps) as [blob|] eqn:Hfirst; [| discriminate].
    intros Hopen. exists response, c, cs, ct, ps, blob. auto 10.
  - intros (response & c & cs & ct & ps & blob & -> & Hcs & Hct & Hps
            & Hfirst & Hopen).
    unfold image_of_response. rewrite Hcs, Hct, Hps, scan_parts_first_inline.
    now rewrite Hfirst.
Qed.

(** C9, as stated, fails: the image of this response sits in its second
    candidate, and the attempt fails for want of image data. *)
Lemma image_in_second_candidate_is_missed :
  carries_inline_data Sample.second_candidate_response = true
  /\ @image_of_response Sample.five_of_six Sample.second_candidate_response
     = Raise (ValueError "No image data in response")
  /\ ~ (carries_inline_data Sample.second_candidate_response = true ->
        exists im,
          @image_of_response Sample.five_of_six
            Sample.second_candidate_response = Return im).
Proof.
  split; [reflexivity |]. split; [reflexivity |].
  intros Hclaim. destruct (Hclaim eq_refl) as [im Him]. discriminate Him.
Qed.

Lemma backoff_trace_1 (prompt : string) :
  backoff_trace prompt 1 = [ImageCall prompt].
Proof. reflexivity. Qed.

Lemma backoff_trace_2 (prompt : string) :
  backoff_trace prompt 2 = [ImageCall prompt; Sleep 2; ImageCall prompt].
Proof. reflexivity. Qed.

Lemma backoff_trace_3 (prompt : string) :
  backoff_trace prompt 3
  = [ImageCall prompt; Sleep 2; ImageCall prompt; Sleep 4; ImageCall prompt].
Proof. reflexivity. Qed.

Lemma on_failure_1 : on_failure 1 = sleep 2.
Proof. reflexivity. Qed.
Lemma on_failure_2 : on_failure 2 = sleep 4.
Proof. reflexivity. Qed.
Lemma on_failure_3 : on_failure 3 = ret tt.
Proof. reflexivity. Qed.

(** One turn of the loop. *)
Lemma attempts_loop_step `{Env} (prompt : string) (attempt : Z)
  (rest : list Z) (w : world) :
  attempts_loop prompt (attempt :: rest) w =
    match attempt_result (image_calls w) prompt with
    | Return im => (Return (Some im), advance w 1 [ImageCall prompt])
    | Raise _ =>
        match on_failure attempt (advance w 1 [ImageCall prompt]) with
        | (Return _, w') => attempts_loop prompt rest w'
        | (Raise e, w') => (Raise e, w')
        end
    end.
Proof.
  cbn [attempts_loop]. unfold bind at 1. unfold try_except at 1.
  unfold bind at 1. rewrite attempt_body_result.
  destruct (attempt_result (image_calls w) prompt) as [im|e]; [reflexivity |].
  unfold bind at 1.
  destruct (on_failure attempt (advance w 1 [ImageCall prompt])) as [[[]|e'] w'];
    reflexivity.
Qed.

(** The three attempts of a call, spelled out. *)
Lemma generate_panel_image_cases `{Env} (prompt : string) (panel_num : Z)
  (w : world) :
  let n := image_calls w in
  generate_panel_image prompt panel_num w =
    match attempt_result n prompt with
    | Return im => (Return (Some im), advance w 1 (backoff_trace prompt 1))
    | Raise _ =>
        match attempt_result (n + 1) prompt with
        | Return im => (Return (Some im), advance w 2 (backoff_trace prompt 2))
        | Raise _ =>
            match attempt_result (n + 2) prompt with
            | Return im =>
                (Return (Some im), advance w 3 (backoff_trace prompt 3))
            | Raise _ => (Return None, advance w 3 (backoff_trace prompt 3))
            end
        end
    end.
Proof.
  intros n. subst n. unfold generate_panel_image.
  change (range 1 (MAX_RETRIES + 1)) with [1; 2; 3].
  rewrite backoff_trace_1, backoff_trace_2, backoff_trace_3.
  rewrite attempts_loop_step, on_failure_1.
  destruct (attempt_result (image_calls w) prompt) as [im|e]; [reflexivity |].
  unfold sleep, emit. cbn [fs text_calls image_calls trace advance].
  rewrite attempts_loop_step, on_failure_2.
  cbn [fs text_calls image_calls trace advance].
  destruct (attempt_result (image_calls w + 1) prompt) as [im|e'].
  { unfold advance. cbn. rewrite <- !app_assoc.
    do 2 f_equal; lia. }
  unfold sleep, emit. cbn [fs text_calls image_calls trace advance].
  rewrite attempts_loop_step, on_failure_3.
  cbn [fs text_calls image_calls trace advance].
  replace (image_calls w + 1 + 1)%nat with (image_calls w + 2)%nat by lia.
  destruct (attempt_result (image_calls w + 2) prompt) as [im|e''].
  { unfold advance. cbn. rewrite <- !app_assoc.
    do 2 f_equal; lia. }
  unfold advance, ret. cbn. rewrite <- !app_assoc.
  do 2 f_equal; lia.
Qed.

(** C3.  A call makes [attempts] requests, between one and [MAX_RETRIES];
    every attempt before the last one made has failed, and the last one
    either succeeds, and its image is returned at once, or is attempt
    number [MAX_RETRIES].  What the call does is exactly the schedule of
    the specification: a sleep of [RETRY_BASE_DELAY * 2^(a-1)] seconds
    between attempt [a] and attempt [a + 1], that is 2 then 4 seconds, and
    a request, not a sleep, as the last event. *)
Theorem generate_panel_image_backoff `{Env} (prompt : string) (panel_num : Z)
  (w : world) :
  exists (attempts : nat) (r : option Image),
    generate_panel_image prompt panel_num w
    = (Return r, advance w attempts (backoff_trace prompt attempts))
    /\ (1 <= attempts)%nat /\ Z.of_nat attempts <= MAX_RETRIES
    /\ (forall k, (k < attempts - 1)%nat ->
                  failed (attempt_result (image_calls w + k) prompt))
    /\ match r with
       | Some im =>
           attempt_result (image_calls w + (attempts - 1)) prompt = Return im
       | None =>
           Z.of_nat attempts = MAX_RETRIES
           /\ failed (attempt_result (image_calls w + (attempts - 1)) prompt)
       end
    /\ sleeps (backoff_trace prompt attempts)
       = take (attempts - 1)
              [RETRY_BASE_DELAY * 2 ^ (1 - 1); RETRY_BASE_DELAY * 2 ^ (2 - 1)]
    /\ sleeps (backoff_trace prompt attempts) = take (attempts - 1) [2; 4]
    /\ last (backoff_trace prompt attempts) = Some (ImageCall prompt).
Proof.
  pose proof (generate_panel_image_cases prompt panel_num w) as Hrun.
  cbv zeta in Hrun.
  assert (Hmax : MAX_RETRIES = 3) by reflexivity.
  destruct (attempt_result (image_calls w) prompt) as [im|e] eqn:H1.
  { exists 1%nat, (Some im). rewrite Hrun.
    split; [reflexivity |]. split; [lia |]. split; [lia |].
    split; [intros k Hk; lia |].
    split; [cbn; now rewrite Nat.add_0_r |].
    split; [reflexivity |]. split; reflexivity. }
  destruct (attempt_result (image_calls w + 1) prompt) as [im|e'] eqn:H2.
  { exists 2%nat, (Some im). rewrite Hrun.
    split; [reflexivity |]. split; [lia |]. split; [lia |].
    split.
    { intros k Hk. assert (k = 0)%nat as -> by lia.
      rewrite Nat.add_0_r, H1. exact I. }
    split; [exact H2 |].
    split; [reflexivity |]. split; reflexivity. }
  assert (Hfirst_two : forall k, (k < 3 - 1)%nat ->
            failed (attempt_result (image_calls w + k) prompt)).
  { intros k Hk. assert (k = 0 \/ k = 1)%nat as [-> | ->] by lia.
    - rewrite Nat.add_0_r, H1. exact I.
    - rewrite H2. exact I. }
  destruct (attempt_result (image_calls w + 2) prompt) as [im|e''] eqn:H3.
  { exists 3%nat, (Some im). rewrite Hrun.
    split; [reflexivity |]. split; [lia |]. split; [lia |].
    split; [exact Hfirst_two |].
    split; [exact H3 |].
    split; [reflexivity |]. split; reflexivity. }
  exists 3%nat, None. rewrite Hrun.
  split; [reflexivity |]. split; [lia |]. split; [lia |].
  split; [exact Hfirst_two |].
  split; [split; [reflexivity | cbn; rewrite H3; exact I] |].
  split; [reflexivity |]. split; reflexivity.
Qed.

(** C5.  A call of the panel generator returns: an image, which is the
    one an attempt of this call produced, or the absent marker.  It
    raises nothing, whatever the service raises or answers, and when all
    its attempts fail it returns the absent marker. *)
Theorem generate_panel_image_never_raises `{Env} (prompt : string)
  (panel_num : Z) (w : world) :
  exists (r : option Image) (w' : world),
    generate_panel_image prompt panel_num w = (Return r, w')
    /\ ((forall k, (k < 3)%nat ->
                   failed (attempt_result (image_calls w + k) prompt)) ->
        r = None)
    /\ (forall im, r = Some im ->
                   exists k, (k < 3)%nat
                             /\ attempt_result (image_calls w + k) prompt
                                = Return im).
Proof.
  pose proof (generate_panel_image_cases prompt panel_num w) as Hrun.
  cbv zeta in Hrun.
  destruct (attempt_result (image_calls w) prompt) as [im|e] eqn:H1.
  { eexists _, _. split; [exact Hrun |]. split.
    - intros Hall. specialize (Hall 0%nat ltac:(lia)).
      rewrite Nat.add_0_r, H1 in Hall. destruct Hall.
    - intros im' [= <-]. exists 0%nat. rewrite Nat.add_0_r. split; [lia | exact H1]. }
  destruct (attempt_result (image_calls w + 1) prompt) as [im|e'] eqn:H2.
  { eexists _, _. split; [exact Hrun |]. split.
    - intros Hall. specialize (Hall 1%nat ltac:(lia)).
      rewrite H2 in Hall. destruct Hall.
    - intros im' [= <-]. exists 1%nat. split; [lia | exact H2]. }
  destruct (attempt_result (image_calls w + 2) prompt) as [im|e''] eqn:H3.
  { eexists _, _. split; [exact Hrun |]. split.
    - intros Hall. specialize (Hall 2%nat ltac:(lia)).
      rewrite H3 in Hall. destruct Hall.
    - intros im' [= <-]. exists 2%nat. split; [lia | exact H3]. }
  eexists _, _. split; [exact Hrun |]. split; [reflexivity | discriminate].
Qed.

(* ===================================================================== *)
(** * Proofs: selector                                                    *)
(* ===================================================================== *)

Lemma span_class_run (run rest : string) (c : ascii) :
  all_in_class run = true -> in_class c = false ->
  span_class (run +:+ String c rest) = (run, String c rest).
Proof.
  intros Hrun Hc. induction run as [|d run IH]; simpl in *.
  - now rewrite Hc.
  - apply andb_true_iff in Hrun as [-> Hrun]. now rewrite IH.
Qed.

Lemma span_class_sound (s run rest : string) :
  span_class s = (run, rest) ->
  s = run +:+ rest /\ all_in_class run = true.
Proof.
  revert run rest. induction s as [|c s IH]; intros run rest; simpl.
  - intros [= <- <-]. split; reflexivity.
  - destruct (in_class c) eqn:Hc.
    + destruct (span_class s) as [run' rest'] eqn:Hs.
      intros [= <- <-]. destruct (IH run' rest' eq_refl) as [-> Hall].
      split; [reflexivity |]. simpl. now rewrite Hc.
    + intros [= <- <-]. split; reflexivity.
Qed.

Lemma append_assoc (a b c : string) : (a +:+ b) +:+ c = a +:+ (b +:+ c).
Proof.
  induction a as [|x a' IH]; [reflexivity |].
  change (String x ((a' +:+ b) +:+ c) = String x (a' +:+ (b +:+ c))).
  now rewrite IH.
Qed.

(** A match at the head of [s] is an integer-array text that [s] starts
    with, and there is one whenever [s] starts with such a text. *)
Lemma match_here_spec (s : string) :
  match match_here s with
  | Some m => integer_array_text m /\ exists post, s = m +:+ post
  | None => forall m post, integer_array_text m -> s <> m +:+ post
  end.
Proof.
  unfold match_here. destruct s as [|c s].
  { intros m post (run & -> & _ & _). discriminate. }
  destruct (Ascii.eqb c "[") eqn:Hc.
  - apply Ascii.eqb_eq in Hc. subst c.
    destruct (span_class s) as [run rest] eqn:Hspan.
    destruct (span_class_sound s run rest Hspan) as [-> Hall].
    assert (Hno : forall m post, integer_array_text m ->
                    (run = EmptyString \/
                     forall rest', rest <> String "]" rest') ->
                    String "[" (run +:+ rest) <> m +:+ post).
    { intros m post (run' & -> & Hne & Hall') Hcase Heq.
      change (String "[" (run +:+ rest)
              = String "[" ((run' +:+ "]") +:+ post)) in Heq.
      injection Heq as Heq. rewrite append_assoc in Heq.
      change ("]" +:+ post) with (String "]" post) in Heq.
      assert (Hspan' : span_class (run +:+ rest) = (run', String "]" post)).
      { rewrite Heq. now apply span_class_run. }
      rewrite Hspan in Hspan'. injection Hspan' as -> ->.
      destruct Hcase as [-> | Hrest]; [now apply Hne |].
      now apply (Hrest post). }
    destruct run as [|d run].
    { intros m post Hm. apply Hno; [exact Hm | now left]. }
    destruct rest as [|e rest].
    { intros m post Hm. apply Hno; [exact Hm | right; discriminate]. }
    destruct (Ascii.eqb e "]") eqn:He.
    + apply Ascii.eqb_eq in He. subst e. split.
      * exists (String d run). split; [reflexivity |].
        split; [discriminate | exact Hall].
      * exists rest.
        change (String "[" (String d run +:+ String "]" rest)
                = String "[" ((String d run +:+ "]") +:+ rest)).
        rewrite append_assoc. reflexivity.
    + apply Ascii.eqb_neq in He.
      intros m post Hm. apply Hno; [exact Hm | right].
      intros rest' [= -> _]. now apply He.
  - apply Ascii.eqb_neq in Hc.
    intros m post (run & -> & _ & _) [= -> _]. now apply Hc.
Qed.

(** The search finds an integer-array text that occurs in [s], and finds
    one whenever one occurs. *)
Lemma re_search_spec (s : string) :
  match re_search s with
  | Some m => integer_array_text m /\ exists pre post, s = pre +:+ m +:+ post
  | None => forall pre m post, integer_array_text m -> s <> pre +:+ m +:+ post
  end.
Proof.
  induction s as [|c s IH].
  - simpl. intros [|] m post (run & -> & _ & _); discriminate.
  - cbn [re_search]. pose proof (match_here_spec (String c s)) as Hhere.
    destruct (match_here (String c s)) as [m|].
    + destruct Hhere as [Hm [post Hpost]]. split; [exact Hm |].
      exists EmptyString, post. exact Hpost.
    + destruct (re_search s) as [m|].
      * destruct IH as [Hm (pre & post & ->)]. split; [exact Hm |].
        exists (String c pre), post. reflexivity.
      * intros [|d pre] m post Hm.
        -- change (String c s <> m +:+ post). apply Hhere, Hm.
        -- change (String c s <> String d (pre +:+ m +:+ post)).
           intros [= _ Heq]. revert Heq. apply IH, Hm.
Qed.

Lemma getitem_in_range {A : Type} (l : list A) (i : Z) :
  0 <= i < Z.of_nat (length l) ->
  exists x, getitem l i = Return x /\ l !! Z.to_nat i = Some x.
Proof.
  intros Hi. unfold getitem.
  destruct (i <? 0) eqn:Hneg; [lia |].
  destruct ((i <? 0) || (Z.of_nat (length l) <=? i)) eqn:Hout; [lia |].
  destruct (l !! Z.to_nat i) as [x|] eqn:Hx.
  - exists x. split; reflexivity.
  - apply lookup_ge_None in Hx. lia.
Qed.

Lemma comprehension_in_range {A : Type} (l : list A) (indices : list Z) :
  Forall (fun i => 1 <= i <= Z.of_nat (length l)) indices ->
  exists selected,
    comprehension (fun i => getitem l (i - 1)) indices = Return selected
    /\ Forall2 (fun i x => l !! Z.to_nat (i - 1) = Some x) indices selected.
Proof.
  induction 1 as [|i indices Hi _ IH]; simpl.
  - exists []. split; [reflexivity | constructor].
  - destruct (getitem_in_range l (i - 1)) as [x [-> Hx]]; [lia |].
    destruct IH as [selected [-> Hall]].
    exists (x :: selected). split; [reflexivity | constructor; assumption].
Qed.

(** What [select_stories] returns, by the answer of the text model. *)
Lemma select_stories_result `{Env} (stories : list Story.t) (w : world) :
  (select_stories stories w).1 =
    match generate_text (text_calls w) (SelectRequest stories) with
    | Raise e => Raise e
    | Return None => Raise AttributeError
    | Return (Some text) =>
        match re_search (strip text) with
        | None => Return (slice_to stories NUM_PANELS)
        | Some m =>
            match json_loads m with
            | Raise e => Raise e
            | Return indices =>
                comprehension (fun i => getitem stories (i - 1))
                              (slice_to indices NUM_PANELS)
            end
        end
    end.
Proof.
  unfold select_stories. run_m.
  destruct (generate_text (text_calls w) (SelectRequest stories))
    as [[text|]|e]; try reflexivity.
  destruct (re_search (strip text)) as [m|]; [| reflexivity].
  destruct (json_loads m) as [indices|e]; [| reflexivity]. simpl.
  destruct (comprehension _ _); reflexivity.
Qed.

Lemma slice_to_NUM_PANELS {A : Type} (l : list A) :
  slice_to l NUM_PANELS = take 6 l.
Proof. reflexivity. Qed.

(** C4, as the code has it.  When the text model answers [text]:
    if the trimmed answer holds no integer-array text (the search of the
    pattern finds nothing), the selector returns the first [NUM_PANELS]
    stories in source order;
    if the search finds one, and it parses to [indices] whose first
    [NUM_PANELS] entries are 1-based positions of stories, the selector
    returns the stories at those entries, in that order, and as many of
    them as there are entries, up to [NUM_PANELS]: exactly [NUM_PANELS]
    when at least that many indices came back, fewer otherwise. *)
Theorem select_stories_cases `{Env} (stories : list Story.t) (text : string)
  (w : world) :
  generate_text (text_calls w) (SelectRequest stories) = Return (Some text) ->
  let K := Z.to_nat NUM_PANELS in
  (re_search (strip text) = None ->
   (select_stories stories w).1 = Return (take K stories))
  /\ ((forall pre m post,
         integer_array_text m -> strip text <> pre +:+ m +:+ post) ->
      (select_stories stories w).1 = Return (take K stories))
  /\ (forall m indices,
        re_search (strip text) = Some m ->
        json_loads m = Return indices ->
        Forall (fun i => 1 <= i <= Z.of_nat (length stories))
               (take K indices) ->
        exists selected,
          (select_stories stories w).1 = Return selected
          /\ Forall2 (fun i s => stories !! Z.to_nat (i - 1) = Some s)
                     (take K indices) selected
          /\ length selected = Nat.min K (length indices)
          /\ ((K <= length indices)%nat -> length selected = K)).
Proof.
  intros Hanswer K. rewrite select_stories_result, Hanswer.
  split; [| split].
  - intros ->. reflexivity.
  - intros Hnone. pose proof (re_search_spec (strip text)) as Hspec.
    destruct (re_search (strip text)) as [m|]; [| reflexivity].
    destruct Hspec as [Hm (pre & post & Heq)].
    exfalso. exact (Hnone pre m post Hm Heq).
  - intros m indices -> -> Hrange. rewrite slice_to_NUM_PANELS.
    destruct (comprehension_in_range stories (take K indices) Hrange)
      as [selected [Hsel Hall]].
    exists selected. split; [exact Hsel |]. split; [exact Hall |].
    assert (Hlen : length selected = Nat.min K (length indices)).
    { rewrite <- (Forall2_length _ _ _ Hall). apply length_take. }
    split; [exact Hlen |]. intros Hsix. rewrite Hlen. lia.
Qed.

(** C4, as stated, fails: an answer with two indices is not replaced by
    the first six stories; two stories come back. *)
Lemma two_indices_no_fallback :
  let e := Sample.env "[1, 2]" (Sample.images []) [] in
  (@select_stories e Sample.stories Sample.empty_world).1
  = Return [Sample.story "1"; Sample.story "2"]
  /\ (@select_stories e Sample.stories Sample.empty_world).1
     <> Return (take 6 Sample.stories)
  /\ forall selected,
       (@select_stories e Sample.stories Sample.empty_world).1
       = Return selected ->
       Z.of_nat (length selected) <> NUM_PANELS.
Proof.
  cbv zeta. split; [reflexivity |]. split.
  - intros Heq. vm_compute in Heq. discriminate Heq.
  - intros selected Heq. vm_compute in Heq.
    injection Heq as <-. vm_compute. discriminate.
Qed.

Lemma select_stories_cases_witness :
  let e := Sample.env "[1, 2]" (Sample.images []) [] in
  @generate_text e 0%nat (SelectRequest Sample.stories)
  = Return (Some "[1, 2]")
  /\ re_search (strip "[1, 2]") = Some "[1, 2]"
  /\ json_loads "[1, 2]" = Return [1; 2]
  /\ exists selected,
       (@select_stories e Sample.stories Sample.empty_world).1
       = Return selected
       /\ length selected = 2%nat.
Proof.
  cbv zeta. split; [reflexivity |]. split; [reflexivity |].
  split; [reflexivity |].
  destruct (@select_stories_cases
              (Sample.env "[1, 2]" (Sample.images []) []) Sample.stories
              "[1, 2]" Sample.empty_world eq_refl) as (_ & _ & Hparsed).
  destruct (Hparsed "[1, 2]" [1; 2] eq_refl eq_refl) as
    (selected & Hrun & _ & Hlen & _).
  { repeat constructor; vm_compute; discriminate. }
  exists selected. split; [exact Hrun | exact Hlen].
Defined.

(* ===================================================================== *)
(** * Proofs: compositor                                                  *)
(* ===================================================================== *)

Lemma place_panels_width (panels : list (option Image)) (i : Z)
  (strip : Image) :
  width (place_panels i panels strip) = width strip.
Proof.
  revert i strip. induction panels as [|[panel|] panels IH]; intros i strip.
  - reflexivity.
  - cbn [place_panels]. rewrite IH. reflexivity.
  - cbn [place_panels]. apply IH.
Qed.

Lemma place_panels_height (panels : list (option Image)) (i : Z)
  (strip : Image) :
  height (place_panels i panels strip) = height strip.
Proof.
  revert i strip. induction panels as [|[panel|] panels IH]; intros i strip.
  - reflexivity.
  - cbn [place_panels]. rewrite IH. reflexivity.
  - cbn [place_panels]. apply IH.
Qed.

Lemma header_size `{Env} (date_str : string) :
  width (header date_str) = strip_width
  /\ height (header date_str) = strip_height.
Proof. unfold header. destruct load_fonts. split; reflexivity. Qed.

(** C6.  The canvas the compositor returns is
    [MARGIN*2 + COLS*PANEL_WIDTH + (COLS-1)*GUTTER] wide and
    [MARGIN*2 + HEADER_HEIGHT + ROWS*PANEL_HEIGHT + (ROWS-1)*GUTTER] high,
    that is 1284 by 1372, for every sequence of panel slots and every
    date string; so any two inputs, whichever of their panels are
    present, give canvases of one size. *)
Theorem compose_comic_strip_dimensions `{Env}
  (panels : list (option Image)) (date_str : string) :
  width (compose_comic_strip panels date_str)
  = MARGIN * 2 + COLS * PANEL_WIDTH + (COLS - 1) * GUTTER
  /\ height (compose_comic_strip panels date_str)
     = MARGIN * 2 + HEADER_HEIGHT + ROWS * PANEL_HEIGHT + (ROWS - 1) * GUTTER
  /\ width (compose_comic_strip panels date_str) = 1284
  /\ height (compose_comic_strip panels date_str) = 1372
  /\ forall panels' date_str',
       width (compose_comic_strip panels' date_str')
       = width (compose_comic_strip panels date_str)
       /\ height (compose_comic_strip panels' date_str')
          = height (compose_comic_strip panels date_str).
Proof.
  assert (Hsize : forall ps d,
            width (compose_comic_strip ps d) = strip_width
            /\ height (compose_comic_strip ps d) = strip_height).
  { intros ps d. unfold compose_comic_strip.
    rewrite place_panels_width, place_panels_height. apply header_size. }
  destruct (Hsize panels date_str) as [Hw Hh]. rewrite Hw, Hh.
  repeat split; try reflexivity; apply Hsize.
Qed.

Lemma place_panels_rectangles (panels : list (option Image)) (i : Z)
  (strip : Image) :
  rectangles (place_panels i panels strip)
  = rectangles strip ++ borders_of_present i panels.
Proof.
  revert i strip. induction panels as [|[panel|] panels IH]; intros i strip;
    cbn [place_panels borders_of_present].
  - now rewrite app_nil_r.
  - rewrite IH. cbn [rectangles]. rewrite <- app_assoc. reflexivity.
  - apply IH.
Qed.

Lemma place_panels_pastes (panels : list (option Image)) (i : Z)
  (strip : Image) :
  pastes (place_panels i panels strip)
  = pastes strip ++ cells_of_present i panels.
Proof.
  revert i strip. induction panels as [|[panel|] panels IH]; intros i strip;
    cbn [place_panels cells_of_present].
  - now rewrite app_nil_r.
  - rewrite IH. cbn [pastes]. rewrite <- app_assoc. reflexivity.
  - apply IH.
Qed.

Lemma header_blank `{Env} (date_str : string) :
  rectangles (header date_str) = [] /\ pastes (header date_str) = [].
Proof. unfold header. destruct load_fonts. split; reflexivity. Qed.

Lemma cell_origin_inj (i j : Z) :
  cell_x i = cell_x j -> cell_y i = cell_y j -> i = j.
Proof.
  unfold cell_x, cell_y, MARGIN, HEADER_HEIGHT, PANEL_WIDTH, PANEL_HEIGHT,
    GUTTER, COLS.
  intros Hx Hy.
  rewrite (Z.div_mod i 3), (Z.div_mod j 3) by lia. lia.
Qed.

Lemma border_box_inj (i j : Z) : border_box i = border_box j -> i = j.
Proof.
  unfold border_box. intros [= Hx Hy _ _].
  apply cell_origin_inj; lia.
Qed.

Lemma borders_of_present_In (panels : list (option Image)) (i : Z)
  (b : box * color * Z) :
  In b (borders_of_present i panels) <->
  exists (k : nat) (p : Image),
    panels !! k = Some (Some p)
    /\ b = (border_box (i + Z.of_nat k), BORDER_COLOR, BORDER).
Proof.
  revert i. induction panels as [|[panel|] panels IH]; intros i;
    cbn [borders_of_present In].
  - split; [intros [] | intros (k & p & Hk & _); destruct k; discriminate].
  - rewrite IH. split.
    + intros [<- | (k & p & Hk & ->)].
      * exists 0%nat, panel. split; [reflexivity |].
        replace (i + Z.of_nat 0) with i by lia. reflexivity.
      * exists (S k), p. split; [exact Hk |].
        replace (i + Z.of_nat (S k)) with (i + 1 + Z.of_nat k) by lia.
        reflexivity.
    + intros (k & p & Hk & ->). destruct k as [|k].
      * left. replace (i + Z.of_nat 0) with i by lia. reflexivity.
      * right. exists k, p. split; [exact Hk |].
        replace (i + Z.of_nat (S k)) with (i + 1 + Z.of_nat k) by lia.
        reflexivity.
  - rewrite IH. split.
    + intros (k & p & Hk & ->). exists (S k), p. split; [exact Hk |].
      replace (i + Z.of_nat (S k)) with (i + 1 + Z.of_nat k) by lia.
      reflexivity.
    + intros (k & p & Hk & ->). destruct k as [|k]; [discriminate |].
      exists k, p. split; [exact Hk |].
      replace (i + Z.of_nat (S k)) with (i + 1 + Z.of_nat k) by lia.
      reflexivity.
Qed.

Lemma cells_of_present_In (panels : list (option Image)) (i : Z)
  (c : Image * (Z * Z)) :
  In c (cells_of_present i panels) <->
  exists (k : nat) (p : Image),
    panels !! k = Some (Some p)
    /\ c = (Resize p PANEL_WIDTH PANEL_HEIGHT,
            (cell_x (i + Z.of_nat k), cell_y (i + Z.of_nat k))).
Proof.
  revert i. induction panels as [|[panel|] panels IH]; intros i;
    cbn [cells_of_present In].
  - split; [intros [] | intros (k & p & Hk & _); destruct k; discriminate].
  - rewrite IH. split.
    + intros [<- | (k & p & Hk & ->)].
      * exists 0%nat, panel. split; [reflexivity |].
        replace (i + Z.of_nat 0) with i by lia. reflexivity.
      * exists (S k), p. split; [exact Hk |].
        replace (i + Z.of_nat (S k)) with (i + 1 + Z.of_nat k) by lia.
        reflexivity.
    + intros (k & p & Hk & ->). destruct k as [|k].
      * left. injection Hk as ->.
        replace (i + Z.of_nat 0) with i by lia. reflexivity.
      * right. exists k, p. split; [exact Hk |].
        replace (i + Z.of_nat (S k)) with (i + 1 + Z.of_nat k) by lia.
        reflexivity.
  - rewrite IH. split.
    + intros (k & p & Hk & ->). exists (S k), p. split; [exact Hk |].
      replace (i + Z.of_nat (S k)) with (i + 1 + Z.of_nat k) by lia.
      reflexivity.
    + intros (k & p & Hk & ->). destruct k as [|k]; [discriminate |].
      exists k, p. split; [exact Hk |].
      replace (i + Z.of_nat (S k)) with (i + 1 + Z.of_nat k) by lia.
      reflexivity.
Qed.

(** C1, as the code has it.  The rectangles of the strip are the borders
    of the slots that hold an image, in slot order, and its pastes the
    images of those slots.  So the border of slot [i], at the place [i]
    fixes (column [i mod COLS], row [i div COLS]), in the border colour
    and stroke, is drawn exactly when slot [i] holds an image, and the
    image, resized to the cell, is then pasted at the origin of the cell;
    for an absent slot no border is drawn and nothing is pasted. *)
Theorem compose_comic_strip_borders `{Env} (panels : list (option Image))
  (date_str : string) (i : nat) :
  rectangles (compose_comic_strip panels date_str)
  = borders_of_present 0 panels
  /\ pastes (compose_comic_strip panels date_str) = cells_of_present 0 panels
  /\ (In (border_box (Z.of_nat i), BORDER_COLOR, BORDER)
         (rectangles (compose_comic_strip panels date_str))
      <-> exists p, panels !! i = Some (Some p))
  /\ (forall p,
        In (Resize p PANEL_WIDTH PANEL_HEIGHT,
            (cell_x (Z.of_nat i), cell_y (Z.of_nat i)))
           (pastes (compose_comic_strip panels date_str))
        <-> panels !! i = Some (Some p))
  /\ (panels !! i = Some None ->
      forall outline stroke,
        ~ In (border_box (Z.of_nat i), outline, stroke)
             (rectangles (compose_comic_strip panels date_str))).
Proof.
  unfold compose_comic_strip.
  rewrite place_panels_rectangles, place_panels_pastes.
  destruct (header_blank date_str) as [-> ->]. cbn [app].
  split; [reflexivity |]. split; [reflexivity |]. split; [| split].
  - rewrite borders_of_present_In. split.
    + intros (k & p & Hk & Hbox).
      assert (Z.of_nat i = 0 + Z.of_nat k) as Hik
        by (apply border_box_inj; congruence).
      assert (i = k) as -> by lia. exists p. exact Hk.
    + intros [p Hp]. exists i, p. split; [exact Hp | reflexivity].
  - intros p. rewrite cells_of_present_In. split.
    + intros (k & q & Hk & Hcell). injection Hcell as Hq Hx Hy.
      assert (Z.of_nat i = 0 + Z.of_nat k) as Hik
        by (apply cell_origin_inj; assumption).
      assert (i = k) as -> by lia. subst q. exact Hk.
    + intros Hp. exists i, p. split; [exact Hp | reflexivity].
  - intros Hnone outline stroke Hin.
    apply borders_of_present_In in Hin as (k & p & Hk & Hbox).
    assert (Z.of_nat i = 0 + Z.of_nat k) as Hik
      by (apply border_box_inj; congruence).
    assert (i = k) as -> by lia. congruence.
Qed.

(** C1, as stated, fails: with the fourth of six panels absent, no
    border is drawn for its slot, while the same slot has its border
    when the panel is present. *)
Lemma absent_slot_has_no_border :
  let p := Opened 832 1248 Sample.png_bytes in
  let with_gap := [Some p; Some p; Some p; None; Some p; Some p] in
  let full := [Some p; Some p; Some p; Some p; Some p; Some p] in
  let compose := @compose_comic_strip Sample.five_of_six in
  with_gap !! 3%nat = Some None
  /\ In (border_box 3, BORDER_COLOR, BORDER)
        (rectangles (compose full "January 16, 2026"))
  /\ ~ In (border_box 3, BORDER_COLOR, BORDER)
          (rectangles (compose with_gap "January 16, 2026"))
  /\ length (rectangles (compose with_gap "January 16, 2026")) = 5%nat.
Proof.
  cbv zeta. split; [reflexivity |]. split; [| split].
  - vm_compute. tauto.
  - intros Hin. vm_compute in Hin.
    repeat (destruct Hin as [Hin | Hin]; [discriminate Hin |]). exact Hin.
  - reflexivity.
Qed.

(* ===================================================================== *)
(** * Proofs: archive                                                     *)
(* ===================================================================== *)

Lemma entries_for_absent (d : string) (comics : Archive.t) :
  d ∉ Archive.date <$> comics -> entries_for d comics = 0%nat.
Proof.
  unfold entries_for. induction comics as [|e comics IH]; [reflexivity |].
  rewrite fmap_cons, not_elem_of_cons. intros [Hne Hnotin].
  rewrite filter_cons_False by congruence. auto.
Qed.

Lemma entries_for_present (d : string) (comics : Archive.t) :
  d ∈ Archive.date <$> comics -> (1 <= entries_for d comics)%nat.
Proof.
  unfold entries_for. induction comics as [|e comics IH].
  - intros Hin. inversion Hin.
  - rewrite fmap_cons, elem_of_cons. intros [Heq | Hin].
    + rewrite filter_cons_True by congruence. simpl. lia.
    + destruct (decide (Archive.date e = d)).
      * rewrite filter_cons_True by assumption. simpl. lia.
      * rewrite filter_cons_False by assumption. auto.
Qed.

Lemma entries_for_new (d image : string) (comics : Archive.t) :
  d ∉ Archive.date <$> comics ->
  entries_for d (Archive.mkEntry d image :: comics) = 1%nat.
Proof.
  intros Hnotin. unfold entries_for.
  rewrite filter_cons_True by reflexivity. simpl.
  f_equal. now apply entries_for_absent.
Qed.

(** One update: the document it leaves. *)
Lemma update_archive_once `{Env} (date_str : string) (comics : Archive.t)
  (w : world) :
  holds_archive w comics ->
  exists w',
    update_archive date_str w = (Return tt, w')
    /\ text_calls w' = text_calls w /\ image_calls w' = image_calls w
    /\ if bool_decide (date_str ∈ Archive.date <$> comics)
       then w' = w
       else fs w' = <[(WEB_OUTPUT_DIR, "archive.json") :=
                        ArchiveJson (Archive.mkEntry date_str
                                       (date_str +:+ ".jpg") :: comics)]>
                      (fs w).
Proof.
  intros Hholds. unfold update_archive, bind, read_file, ret, write_file.
  destruct Hholds as [-> | [-> ->]].
  - destruct (bool_decide (date_str ∈ Archive.date <$> comics)) eqn:E.
    + exists w. auto.
    + eexists. split; [reflexivity |]. simpl. auto.
  - eexists. split; [reflexivity |]. simpl. auto.
Qed.

(** An archive without two entries of one date keeps that shape. *)
Lemma update_archive_keeps_dates_distinct `{Env} (date_str : string)
  (comics : Archive.t) (w : world) :
  holds_archive w comics ->
  NoDup (Archive.date <$> comics) ->
  exists comics',
    holds_archive (update_archive date_str w).2 comics'
    /\ NoDup (Archive.date <$> comics').
Proof.
  intros Hholds Hnodup.
  destruct (update_archive_once date_str comics w Hholds)
    as (w' & Hrun & _ & _ & Hdoc).
  rewrite Hrun. simpl.
  destruct (bool_decide (date_str ∈ Archive.date <$> comics)) eqn:E.
  - subst w'. exists comics. split; assumption.
  - apply bool_decide_eq_false in E.
    exists (Archive.mkEntry date_str (date_str +:+ ".jpg") :: comics). split.
    + left. rewrite Hdoc. apply lookup_insert_eq.
    + rewrite fmap_cons. simpl. apply NoDup_cons. split; assumption.
Qed.

(** C7, as the code has it.  For an archive with at most one entry of the
    date (in particular one without the date, and every archive whose
    dates are distinct), two updates with that date return normally and
    leave a document with exactly one entry of the date; the second
    update changes nothing; an entry for a date that was not there goes
    in front of the others, which keep their order; and an archive that
    had the date is left as it was. *)
Theorem update_archive_twice `{Env} (date_str : string) (comics : Archive.t)
  (w : world) :
  holds_archive w comics ->
  (entries_for date_str comics <= 1)%nat ->
  exists w1 comics',
    update_archive date_str w = (Return tt, w1)
    /\ update_archive date_str w1 = (Return tt, w1)
    /\ fs w1 !! (WEB_OUTPUT_DIR, "archive.json") = Some (ArchiveJson comics')
    /\ entries_for date_str comics' = 1%nat
    /\ (date_str ∉ Archive.date <$> comics ->
        comics' = Archive.mkEntry date_str (date_str +:+ ".jpg") :: comics)
    /\ (date_str ∈ Archive.date <$> comics -> comics' = comics).
Proof.
  intros Hholds Hcount.
  destruct (update_archive_once date_str comics w Hholds)
    as (w1 & Hrun & _ & _ & Hdoc).
  destruct (bool_decide (date_str ∈ Archive.date <$> comics)) eqn:E.
  - apply bool_decide_eq_true in E. subst w1.
    destruct Hholds as [Hfile | [_ ->]]; [| inversion E].
    exists w, comics. split; [exact Hrun |]. split; [exact Hrun |].
    split; [exact Hfile |]. split.
    + pose proof (entries_for_present date_str comics E). lia.
    + split; [intros Hnotin; contradiction | reflexivity].
  - apply bool_decide_eq_false in E.
    set (comics' := Archive.mkEntry date_str (date_str +:+ ".jpg") :: comics).
    assert (Hfile : fs w1 !! (WEB_OUTPUT_DIR, "archive.json")
                    = Some (ArchiveJson comics')).
    { rewrite Hdoc. apply lookup_insert_eq. }
    exists w1, comics'. split; [exact Hrun |]. split.
    { destruct (update_archive_once date_str comics' w1 (or_introl Hfile))
        as (w2 & Hrun2 & _ & _ & Hdoc2).
      rewrite bool_decide_eq_true_2 in Hdoc2
        by (subst comics'; rewrite fmap_cons; apply elem_of_cons; left; reflexivity).
      now subst w2. }
    split; [exact Hfile |]. split; [now apply entries_for_new |].
    split; [reflexivity | intros Hin; contradiction].
Qed.

Lemma update_archive_twice_witness :
  let e := Sample.five_of_six in
  let w := Sample.world_with_archive [Sample.entry "2026-01-15"] in
  @holds_archive e w [Sample.entry "2026-01-15"]
  /\ (entries_for "2026-01-16" [Sample.entry "2026-01-15"] <= 1)%nat
  /\ exists w1,
       @update_archive e "2026-01-16" w = (Return tt, w1)
       /\ @update_archive e "2026-01-16" w1 = (Return tt, w1)
       /\ fs w1 !! ("output", "archive.json")
          = Some (ArchiveJson [Sample.entry "2026-01-16";
                               Sample.entry "2026-01-15"]).
Proof.
  cbv zeta.
  assert (Hholds : @holds_archive Sample.five_of_six
                     (Sample.world_with_archive [Sample.entry "2026-01-15"])
                     [Sample.entry "2026-01-15"]) by (left; reflexivity).
  assert (Hcount : (entries_for "2026-01-16" [Sample.entry "2026-01-15"]
                    <= 1)%nat) by (vm_compute; lia).
  split; [exact Hholds |]. split; [exact Hcount |].
  destruct (@update_archive_twice Sample.five_of_six "2026-01-16"
              [Sample.entry "2026-01-15"]
              (Sample.world_with_archive [Sample.entry "2026-01-15"])
              Hholds Hcount)
    as (w1 & comics' & Hrun1 & Hrun2 & Hfile & _ & Hnew & _).
  exists w1. split; [exact Hrun1 |]. split; [exact Hrun2 |].
  rewrite Hnew in Hfile; [exact Hfile |].
  intros Hin. vm_compute in Hin.
  apply list_elem_of_singleton in Hin. discriminate Hin.
Defined.

(** C7, as stated, fails: an archive document that already lists the
    date twice still lists it twice after two updates. *)
Lemma duplicated_date_stays_duplicated :
  let e := Sample.five_of_six in
  let twice := [Sample.entry "2026-01-16"; Sample.entry "2026-01-16"] in
  let w := Sample.world_with_archive twice in
  @update_archive e "2026-01-16" w = (Return tt, w)
  /\ fs (@update_archive e "2026-01-16"
           (@update_archive e "2026-01-16" w).2).2
       !! ("output", "archive.json")
     = Some (ArchiveJson twice)
  /\ entries_for "2026-01-16" twice = 2%nat.
Proof. cbv zeta. split; [reflexivity |]. split; reflexivity. Qed.

(* ===================================================================== *)
(** * Proofs: what a computation does to the world                        *)
(* ===================================================================== *)

Lemma run_from_refl (w : world) : run_from w w [].
Proof. split; [now rewrite app_nil_r | reflexivity]. Qed.

Lemma run_from_trans (w1 w2 w3 : world) (e1 e2 : list event) :
  run_from w1 w2 e1 -> run_from w2 w3 e2 -> run_from w1 w3 (e1 ++ e2).
Proof.
  intros [Ht1 Hf1] [Ht2 Hf2]. split.
  - now rewrite Ht2, Ht1, app_assoc.
  - unfold replay in *. now rewrite foldl_app, <- Hf1.
Qed.

Section Emits.
Context {A B : Type} (P : event -> Prop).

Lemma emits_ret (a : A) : emits P (ret a).
Proof. intros w. exists []. split; [apply run_from_refl | constructor]. Qed.

Lemma emits_raise (e : exn) : emits P (@raise A e).
Proof. intros w. exists []. split; [apply run_from_refl | constructor]. Qed.

Lemma emits_lift (o : outcome A) : emits P (lift o).
Proof. intros w. exists []. split; [apply run_from_refl | constructor]. Qed.

Lemma emits_bind (m : M A) (f : A -> M B) :
  emits P m -> (forall a, emits P (f a)) -> emits P (bind m f).
Proof.
  intros Hm Hf w. unfold bind. destruct (Hm w) as (e1 & Hrun1 & HP1).
  destruct (m w) as [[a|e] w1]; simpl in *.
  - destruct (Hf a w1) as (e2 & Hrun2 & HP2).
    exists (e1 ++ e2). split.
    + eapply run_from_trans; eassumption.
    + apply Forall_app. split; assumption.
  - exists e1. split; assumption.
Qed.

Lemma emits_try_except (body : M A) (handler : exn -> M A) :
  emits P body -> (forall e, emits P (handler e)) ->
  emits P (try_except body handler).
Proof.
  intros Hm Hh w. unfold try_except. destruct (Hm w) as (e1 & Hrun1 & HP1).
  destruct (body w) as [[a|e] w1]; simpl in *.
  - exists e1. split; assumption.
  - destruct (Hh e w1) as (e2 & Hrun2 & HP2).
    exists (e1 ++ e2). split.
    + eapply run_from_trans; eassumption.
    + apply Forall_app. split; assumption.
Qed.
End Emits.

(** [emits_bind], knowing something of the value [m] returns. *)
Lemma emits_bind_value {A B : Type} (P : event -> Prop) (Q : A -> Prop)
  (m : M A) (f : A -> M B) :
  emits P m ->
  (forall w a w', m w = (Return a, w') -> Q a) ->
  (forall a, Q a -> emits P (f a)) ->
  emits P (bind m f).
Proof.
  intros Hm HQ Hf w. unfold bind. destruct (Hm w) as (e1 & Hrun1 & HP1).
  specialize (HQ w).
  destruct (m w) as [[a|e] w1]; simpl in *.
  - destruct (Hf a (HQ a w1 eq_refl) w1) as (e2 & Hrun2 & HP2).
    exists (e1 ++ e2). split.
    + eapply run_from_trans; eassumption.
    + apply Forall_app. split; assumption.
  - exists e1. split; assumption.
Qed.

Lemma emits_emit (P : event -> Prop) (e : event) :
  (forall p c, e <> Write p c) -> P e -> emits P (emit e).
Proof.
  intros Hnw HP w. exists [e]. split.
  - split; [reflexivity |]. simpl.
    destruct e; try reflexivity. exfalso. eapply Hnw. reflexivity.
  - repeat constructor. exact HP.
Qed.

Lemma emits_write_file (P : event -> Prop) (p : path) (c : file) :
  P (Write p c) -> emits P (write_file p c).
Proof.
  intros HP w. exists [Write p c]. split.
  - split; reflexivity.
  - repeat constructor. exact HP.
Qed.

Lemma emits_read_file (P : event -> Prop) (p : path) : emits P (read_file p).
Proof. intros w. exists []. split; [apply run_from_refl | constructor]. Qed.

Lemma emits_text_call `{Env} (P : event -> Prop) (req : text_request) :
  P (TextCall req) -> emits P (text_call req).
Proof.
  intros HP w. exists [TextCall req]. split.
  - split; reflexivity.
  - repeat constructor. exact HP.
Qed.

Lemma emits_image_call `{Env} (P : event -> Prop) (prompt : string) :
  P (ImageCall prompt) -> emits P (image_call prompt).
Proof.
  intros HP w. exists [ImageCall prompt]. split.
  - split; reflexivity.
  - repeat constructor. exact HP.
Qed.

Ltac emits_step :=
  first
    [ apply emits_bind; [| intros ?]
    | apply emits_try_except; [| intros ?]
    | apply emits_ret | apply emits_raise | apply emits_lift
    | apply emits_read_file
    | apply emits_text_call; exact I
    | apply emits_image_call; exact I
    | apply emits_emit; [intros ? ?; discriminate | exact I] ].

Lemma select_stories_scratch `{Env} (stories : list Story.t) :
  emits scratch_write (select_stories stories).
Proof.
  unfold select_stories. emits_step; [emits_step |].
  destruct a as [text|]; [| emits_step].
  destruct (re_search (strip text)); repeat emits_step.
Qed.

Lemma generate_image_prompt_scratch `{Env} (story : Story.t) :
  emits scratch_write (generate_image_prompt story).
Proof.
  unfold generate_image_prompt. emits_step; [emits_step |].
  destruct a; emits_step.
Qed.

Lemma generate_prompts_scratch `{Env} (stories : list Story.t) :
  emits scratch_write (generate_prompts stories).
Proof.
  induction stories as [|story stories IH]; cbn [generate_prompts].
  - emits_step.
  - emits_step; [apply generate_image_prompt_scratch |].
    emits_step; [exact IH | emits_step].
Qed.

Lemma generate_panel_image_scratch `{Env} (prompt : string) (panel_num : Z) :
  emits scratch_write (generate_panel_image prompt panel_num).
Proof.
  unfold generate_panel_image.
  induction (range 1 (MAX_RETRIES + 1)) as [|attempt rest IH];
    cbn [attempts_loop].
  - emits_step.
  - emits_step.
    + emits_step.
      * unfold attempt_body. repeat emits_step.
      * unfold on_failure, sleep.
        destruct (attempt <? MAX_RETRIES); repeat emits_step.
    + destruct a; [emits_step | exact IH].
Qed.

(** A panel that comes back is an image as [Image.open] made it. *)
Lemma generate_panel_image_opened `{Env} (prompt : string) (panel_num : Z)
  (w w' : world) (im : Image) :
  generate_panel_image prompt panel_num w = (Return (Some im), w') ->
  exists wd ht data, im = Opened wd ht data.
Proof.
  assert (Hopen : forall n, attempt_result n prompt = Return im ->
                            exists wd ht data, im = Opened wd ht data).
  { intros n. unfold attempt_result.
    destruct (generate_image n prompt) as [response|]; [| discriminate].
    unfold image_of_response.
    destruct (Gemini.candidates response) as [[|c cs]|]; try discriminate.
    destruct (Gemini.content c) as [ct|]; [| discriminate].
    destruct (Gemini.parts ct) as [ps|]; [| discriminate].
    rewrite scan_parts_first_inline.
    destruct (first_inline ps) as [blob|]; [| discriminate].
    unfold Image_open.
    destruct (default [] (Gemini.data blob)) as [|b data]; [discriminate |].
    destruct (identify (b :: data)) as [[wd ht]|]; [| discriminate].
    intros [= <-]. eauto. }
  rewrite generate_panel_image_cases. cbv zeta.
  destruct (attempt_result (image_calls w) prompt) eqn:H1.
  { intros [= <- _]. eauto. }
  destruct (attempt_result (image_calls w + 1) prompt) eqn:H2.
  { intros [= <- _]. eauto. }
  destruct (attempt_result (image_calls w + 2) prompt) eqn:H3.
  { intros [= <- _]. eauto. }
  discriminate.
Qed.

Lemma generate_panels_scratch `{Env} (prompts : list string) (i : Z) :
  0 <= i -> emits scratch_write (generate_panels i prompts).
Proof.
  revert i. induction prompts as [|prompt prompts IH]; intros i Hi;
    cbn [generate_panels].
  - emits_step.
  - apply emits_bind_value
      with (Q := fun panel => forall im, panel = Some im ->
                                         exists wd ht data, im = Opened wd ht data).
    + apply generate_panel_image_scratch.
    + intros w panel w' Hrun im ->.
      eapply generate_panel_image_opened. exact Hrun.
    + intros panel Hpanel. emits_step.
      * destruct panel as [im|]; [| emits_step].
        destruct (Hpanel im eq_refl) as (wd & ht & data & ->).
        apply emits_write_file. simpl. split; [reflexivity |].
        exists (i + 1). split; [lia | reflexivity].
      * emits_step; [apply IH; lia | emits_step].
Qed.

(** Up to the gate, a run writes nothing but scratch panels. *)
Lemma generate_scratch `{Env} : emits scratch_write generate.
Proof.
  unfold generate, fetch_stories. emits_step.
  { destruct argv as [|? [|today ?]]; try emits_step.
    destruct (strptime_display today); emits_step. }
  emits_step; [emits_step |].
  emits_step; [apply select_stories_scratch |].
  emits_step; [apply generate_prompts_scratch |].
  emits_step; [apply generate_panels_scratch; lia | emits_step].
Qed.

(* ===================================================================== *)
(** * Proofs: file names                                                  *)
(* ===================================================================== *)

Lemma length_append (a b : string) :
  String.length (a +:+ b) = (String.length a + String.length b)%nat.
Proof. induction a as [|c a IH]; simpl; [reflexivity | now rewrite IH]. Qed.

(** Two names that end in suffixes of one length end in the same suffix. *)
Lemma append_suffix_eq (s1 s2 a b : string) :
  String.length a = String.length b -> s1 +:+ a = s2 +:+ b -> a = b.
Proof.
  intros Hlen. revert s2. induction s1 as [|c s1 IH]; intros [|d s2] Heq.
  - exact Heq.
  - apply (f_equal String.length) in Heq.
    rewrite !length_append in Heq. cbn [String.length] in Heq. lia.
  - apply (f_equal String.length) in Heq.
    rewrite !length_append in Heq. cbn [String.length] in Heq. lia.
  - injection Heq as _ Heq. eauto.
Qed.

(** Names with one suffix are equal only if what precedes it is. *)
Lemma append_cancel_r (s1 s2 a : string) : s1 +:+ a = s2 +:+ a -> s1 = s2.
Proof.
  revert s2. induction s1 as [|c s1 IH]; intros [|d s2] Heq.
  - reflexivity.
  - apply (f_equal String.length) in Heq.
    rewrite !length_append in Heq. cbn [String.length] in Heq. lia.
  - apply (f_equal String.length) in Heq.
    rewrite !length_append in Heq. cbn [String.length] in Heq. lia.
  - injection Heq as -> Heq. f_equal. auto.
Qed.

Ltac suffix_differs pre a b :=
  let Heq := fresh in
  intros Heq; apply (append_suffix_eq _ pre a b eq_refl) in Heq;
  discriminate Heq.

Lemma json_is_not_latest_image (d : string) :
  d +:+ ".json" <> "latest-1.jpg" /\ d +:+ ".json" <> "latest-2.jpg".
Proof.
  split; [suffix_differs "latest-" ".json" "1.jpg"
         | suffix_differs "latest-" ".json" "2.jpg"].
Qed.

Lemma png_is_not_published (d : string) :
  d +:+ ".png" <> "latest-1.jpg" /\ d +:+ ".png" <> "latest-2.jpg"
  /\ d +:+ ".png" <> "latest.json" /\ d +:+ ".png" <> "archive.json"
  /\ d +:+ ".png" <> d +:+ ".jpg" /\ d +:+ ".png" <> d +:+ ".json".
Proof.
  repeat split.
  - suffix_differs "latest-1" ".png" ".jpg".
  - suffix_differs "latest-2" ".png" ".jpg".
  - suffix_differs "latest." ".png" "json".
  - suffix_differs "archive." ".png" "json".
  - suffix_differs d ".png" ".jpg".
  - intros Heq. apply (f_equal String.length) in Heq.
    rewrite !length_append in Heq. simpl in Heq. lia.
Qed.

(* ===================================================================== *)
(** * Proofs: persistence                                                 *)
(* ===================================================================== *)

Lemma replay_lookup_other (events : list event) (files : gmap path file)
  (q : path) :
  Forall (fun e => match e with Write p _ => p <> q | _ => True end) events ->
  replay events files !! q = files !! q.
Proof.
  unfold replay. intros Hall. revert files.
  induction Hall as [|e events He _ IH]; intros files; [reflexivity |].
  cbn [foldl]. rewrite IH. destruct e; try reflexivity.
  now apply lookup_insert_ne.
Qed.

Lemma copy_emits (P : event -> Prop) (src dst : path) :
  (forall c, P (Write dst c)) -> emits P (copy src dst).
Proof.
  intros HP. unfold copy. emits_step; [emits_step |].
  destruct a as [c|]; [apply emits_write_file, HP | emits_step].
Qed.

(** [update_latest_images] writes the two latest images and nothing else. *)
Lemma update_latest_images_writes `{Env} :
  emits latest_write update_latest_images.
Proof.
  intros w. unfold update_latest_images.
  set (comics := sorted_glob_desc _ _ _).
  assert (Hinner : emits latest_write
            (do _ <- match comics !! 0%nat with
                     | Some c => copy (WEB_OUTPUT_DIR, c)
                                      (WEB_OUTPUT_DIR, "latest-1.jpg")
                     | None => ret tt
                     end;
             match comics !! 1%nat with
             | Some c => copy (WEB_OUTPUT_DIR, c)
                              (WEB_OUTPUT_DIR, "latest-2.jpg")
             | None => ret tt
             end)).
  { emits_step.
    - destruct (comics !! 0%nat); [| emits_step].
      apply copy_emits. intros c. left. reflexivity.
    - destruct (comics !! 1%nat); [| emits_step].
      apply copy_emits. intros c. right. reflexivity. }
  exact (Hinner w).
Qed.

Lemma sorted_glob_desc_exists (dir pattern name : string)
  (files : gmap path file) :
  name ∈ sorted_glob_desc dir pattern files -> is_Some (files !! (dir, name)).
Proof.
  unfold sorted_glob_desc, listdir. rewrite merge_sort_Permutation.
  rewrite list_elem_of_filter, list_elem_of_omap.
  intros [_ ([[d n] c] & Hin & Hsome)].
  apply elem_of_map_to_list in Hin. simpl in Hsome.
  destruct (decide (d = dir)) as [-> |]; [| discriminate].
  injection Hsome as ->. eauto.
Qed.

(** Copying the files the listing found cannot fail. *)
Lemma update_latest_images_returns `{Env} (w : world) :
  (update_latest_images w).1 = Return tt.
Proof.
  unfold update_latest_images.
  set (comics := sorted_glob_desc _ _ _).
  assert (Hexists : forall i c, comics !! i = Some c ->
                                is_Some (fs w !! (WEB_OUTPUT_DIR, c))).
  { intros i c Hi. apply sorted_glob_desc_exists with (pattern := "????-??-??.jpg").
    eapply list_elem_of_lookup_2. exact Hi. }
  unfold bind, copy, read_file, write_file, bind, ret, raise.
  destruct (comics !! 0%nat) as [c0|] eqn:H0.
  - destruct (Hexists _ _ H0) as [f0 ->]. cbn [fs].
    destruct (comics !! 1%nat) as [c1|] eqn:H1; [| reflexivity].
    destruct (Hexists _ _ H1) as [f1 Hf1]. cbn [fs].
    destruct (decide ((WEB_OUTPUT_DIR, "latest-1.jpg") = (WEB_OUTPUT_DIR, c1)))
      as [Heq | Hne].
    + rewrite <- Heq, lookup_insert_eq. reflexivity.
    + rewrite lookup_insert_ne, Hf1 by exact Hne. reflexivity.
  - destruct (comics !! 1%nat) as [c1|] eqn:H1; [| reflexivity].
    destruct (Hexists _ _ H1) as [f1 ->]. reflexivity.
Qed.

(** [update_archive] leaves alone every file that is not an archive
    document. *)
Lemma update_archive_keeps `{Env} (date_str : string) (w : world) (q : path)
  (c : file) :
  fs w !! q = Some c -> (forall comics, c <> ArchiveJson comics) ->
  fs (update_archive date_str w).2 !! q = Some c.
Proof.
  intros Hq Hc. unfold update_archive, bind, read_file, write_file, ret, raise.
  destruct (decide (q = (WEB_OUTPUT_DIR, "archive.json"))) as [-> | Hne].
  - rewrite Hq. destruct c; try exact Hq. exfalso. eapply Hc. reflexivity.
  - destruct (fs w !! (WEB_OUTPUT_DIR, "archive.json")) as [[]|];
      try exact Hq.
    + destruct (bool_decide _); [exact Hq |]. cbn [fs snd].
      now rewrite lookup_insert_ne by congruence.
    + destruct (bool_decide _); [exact Hq |]. cbn [fs snd].
      now rewrite lookup_insert_ne by congruence.
Qed.

Lemma update_archive_trace `{Env} (date_str : string) :
  emits (fun _ => True) (update_archive date_str).
Proof.
  unfold update_archive. emits_step; [emits_step |].
  emits_step.
  - destruct a as [[]|]; emits_step.
  - destruct (bool_decide _); [emits_step |].
    apply emits_write_file. exact I.
Qed.

(* ===================================================================== *)
(** * Proofs: run orchestrator                                            *)
(* ===================================================================== *)

Lemma publish_below_gate `{Env} (g : generated) (w : world) :
  successful (panels g) < MIN_PANELS_REQUIRED ->
  exists msg, publish g w = (Raise (RuntimeError msg), w).
Proof.
  intros Hfew. unfold publish.
  destruct (successful (panels g) <? MIN_PANELS_REQUIRED) eqn:E; [| lia].
  eexists. reflexivity.
Qed.

Lemma publish_through_gate `{Env} (g : generated) (w : world) :
  MIN_PANELS_REQUIRED <= successful (panels g) ->
  publish g w =
    match update_archive (today g)
            (update_latest_images (after_dated_writes g w)).2 with
    | (Return _, w') =>
        (Return (metadata_of (selected_stories g) (today g)), w')
    | (Raise e, w') => (Raise e, w')
    end.
Proof.
  intros Hmin. unfold publish.
  destruct (successful (panels g) <? MIN_PANELS_REQUIRED) eqn:E; [lia |].
  unfold save_metadata.
  unfold bind at 1. unfold write_file at 1.
  unfold bind at 1. unfold write_file at 1.
  unfold bind at 1. unfold bind at 1. unfold write_file at 1.
  unfold bind at 1. unfold write_file at 1. unfold ret at 1.
  cbn [fs text_calls image_calls trace].
  match goal with
  | |- context [bind update_latest_images _ ?w4] =>
      replace w4 with (after_dated_writes g w)
  end.
  2:{ unfold after_dated_writes, dated_writes. cbn [replay foldl].
      rewrite <- !app_assoc. reflexivity. }
  unfold bind at 1.
  pose proof (update_latest_images_returns (after_dated_writes g w)) as Hret.
  destruct (update_latest_images (after_dated_writes g w)) as [r5 w5].
  simpl in Hret. subst r5. cbn [snd]. unfold bind at 1.
  destruct (update_archive (today g) w5) as [[[]|e] w6]; reflexivity.
Qed.

Lemma latest_write_other `{Env} (events : list event) (q : path) :
  q <> (WEB_OUTPUT_DIR, "latest-1.jpg") ->
  q <> (WEB_OUTPUT_DIR, "latest-2.jpg") ->
  Forall latest_write events ->
  Forall (fun e => match e with Write p _ => p <> q | _ => True end) events.
Proof.
  intros H1 H2 Hall. eapply Forall_impl; [exact Hall |].
  intros [| | |p c]; simpl; try tauto.
  intros [-> | ->]; congruence.
Qed.

(** What the world holds after [publish], for a run through the gate. *)
Lemma publish_world `{Env} (g : generated) (w : world) :
  MIN_PANELS_REQUIRED <= successful (panels g) ->
  let strip := compose_comic_strip (panels g) (today_display g) in
  let metadata := metadata_of (selected_stories g) (today g) in
  let w' := (publish g w).2 in
  (exists rest, trace w' = trace w ++ dated_writes g ++ rest)
  /\ fs w' !! (FULLRES_DIR, today g +:+ ".png") = Some (PNG strip)
  /\ fs w' !! (WEB_OUTPUT_DIR, today g +:+ ".json")
     = Some (MetadataJson metadata)
  /\ fs w' !! (WEB_OUTPUT_DIR, "latest.json") = Some (MetadataJson metadata)
  /\ (today g <> "latest-1" -> today g <> "latest-2" ->
      fs w' !! (WEB_OUTPUT_DIR, today g +:+ ".jpg")
      = Some (JPEG (optimize_for_web strip) WEB_QUALITY))
  /\ (forall comics,
        holds_archive w comics -> today g <> "archive" ->
        (publish g w).1 = Return metadata).
Proof.
  intros Hmin strip metadata w'. subst w'.
  rewrite (publish_through_gate g w Hmin).
  set (w4 := after_dated_writes g w).
  destruct (update_latest_images_writes w4) as (ev5 & [Ht5 Hf5] & Hlatest).
  set (w5 := (update_latest_images w4).2) in *.
  destruct (update_archive_trace (today g) w5) as (ev6 & [Ht6 _] & _).
  assert (Hw6 : (match update_archive (today g) w5 with
                 | (Return _, w') => (Return metadata, w')
                 | (Raise e, w') => (Raise e, w')
                 end).2 = (update_archive (today g) w5).2).
  { destruct (update_archive (today g) w5) as [[[]|e] w6]; reflexivity. }
  fold metadata. rewrite Hw6.
  destruct (png_is_not_published (today g))
    as (Hp1 & Hp2 & Hp3 & Hp4 & Hp5 & Hp6).
  destruct (json_is_not_latest_image (today g)) as [Hj1 Hj2].
  (* the four files right after they are written *)
  assert (H4png : fs w4 !! (FULLRES_DIR, today g +:+ ".png")
                  = Some (PNG strip)).
  { unfold w4, after_dated_writes, dated_writes. cbn [fs replay foldl].
    rewrite !lookup_insert_ne by congruence. apply lookup_insert_eq. }
  assert (H4json : fs w4 !! (WEB_OUTPUT_DIR, today g +:+ ".json")
                   = Some (MetadataJson metadata)).
  { unfold w4, after_dated_writes, dated_writes. cbn [fs replay foldl].
    rewrite lookup_insert. case_decide; [reflexivity |].
    apply lookup_insert_eq. }
  assert (H4latest : fs w4 !! (WEB_OUTPUT_DIR, "latest.json")
                     = Some (MetadataJson metadata)).
  { unfold w4, after_dated_writes, dated_writes. cbn [fs replay foldl].
    apply lookup_insert_eq. }
  assert (H4jpg : fs w4 !! (WEB_OUTPUT_DIR, today g +:+ ".jpg")
                  = Some (JPEG (optimize_for_web strip) WEB_QUALITY)).
  { unfold w4, after_dated_writes, dated_writes. cbn [fs replay foldl].
    rewrite lookup_insert_ne.
    2:{ intros [= Heq]. symmetry in Heq. revert Heq.
        suffix_differs "latest." ".jpg" "json". }
    rewrite lookup_insert_ne.
    2:{ intros [= Heq]. apply (f_equal String.length) in Heq.
        rewrite !length_append in Heq. simpl in Heq. lia. }
    apply lookup_insert_eq. }
  split; [| split; [| split; [| split; [| split]]]].
  - exists (ev5 ++ ev6). rewrite Ht6, Ht5. unfold w4, after_dated_writes.
    cbn [trace]. now rewrite <- !app_assoc.
  - apply update_archive_keeps; [| discriminate]. rewrite Hf5.
    rewrite replay_lookup_other; [exact H4png |].
    apply latest_write_other; [congruence | congruence | exact Hlatest].
  - apply update_archive_keeps; [| discriminate]. rewrite Hf5.
    rewrite replay_lookup_other; [exact H4json |].
    apply latest_write_other; [congruence | congruence | exact Hlatest].
  - apply update_archive_keeps; [| discriminate]. rewrite Hf5.
    rewrite replay_lookup_other; [exact H4latest |].
    apply latest_write_other; [discriminate | discriminate | exact Hlatest].
  - intros Hl1 Hl2. apply update_archive_keeps; [| discriminate]. rewrite Hf5.
    rewrite replay_lookup_other; [exact H4jpg |].
    apply latest_write_other; [| | exact Hlatest].
    + intros [= Heq]. apply Hl1. apply (append_cancel_r _ _ ".jpg"), Heq.
    + intros [= Heq]. apply Hl2. apply (append_cancel_r _ _ ".jpg"), Heq.
  - intros comics Hholds Hnot.
    assert (Hsame : fs w5 !! (WEB_OUTPUT_DIR, "archive.json")
                    = fs w !! (WEB_OUTPUT_DIR, "archive.json")).
    { rewrite Hf5, replay_lookup_other
        by (apply latest_write_other;
            [discriminate | discriminate | exact Hlatest]).
      unfold w4, after_dated_writes, dated_writes. cbn [fs replay foldl].
      rewrite lookup_insert_ne by discriminate.
      rewrite lookup_insert_ne.
      2:{ intros [= Heq]. apply Hnot.
          apply (append_cancel_r _ _ ".json"), Heq. }
      rewrite lookup_insert_ne.
      2:{ intros [= Heq]. revert Heq.
          suffix_differs "archive." ".jpg" "json". }
      rewrite lookup_insert_ne by congruence. reflexivity. }
    assert (Hholds5 : holds_archive w5 comics).
    { unfold holds_archive in *. rewrite Hsame. exact Hholds. }
    destruct (update_archive_once (today g) comics w5 Hholds5)
      as (w6 & -> & _).
    reflexivity.
Qed.

Lemma bind_return_inv {A B : Type} (m : M A) (f : A -> M B) (w w' : world)
  (b : B) :
  bind m f w = (Return b, w') ->
  exists a w1, m w = (Return a, w1) /\ f a w1 = (Return b, w').
Proof.
  unfold bind. destruct (m w) as [[a|e] w1]; [eauto | discriminate].
Qed.

Lemma generate_prompts_length `{Env} (stories : list Story.t) (w w' : world)
  (prompts : list string) :
  generate_prompts stories w = (Return prompts, w') ->
  length prompts = length stories.
Proof.
  revert w w' prompts. induction stories as [|story stories IH];
    intros w w' prompts; cbn [generate_prompts].
  - intros [= <- _]. reflexivity.
  - intros Hrun.
    apply bind_return_inv in Hrun as (prompt & w1 & _ & Hrun).
    apply bind_return_inv in Hrun as (rest & w2 & Hrest & Hret).
    injection Hret as <- _. simpl. f_equal. eauto.
Qed.

Lemma generate_panels_length `{Env} (prompts : list string) (i : Z)
  (w w' : world) (panels : list (option Image)) :
  generate_panels i prompts w = (Return panels, w') ->
  length panels = length prompts.
Proof.
  revert i w w' panels. induction prompts as [|prompt prompts IH];
    intros i w w' panels; cbn [generate_panels].
  - intros [= <- _]. reflexivity.
  - intros Hrun.
    apply bind_return_inv in Hrun as (panel & w1 & _ & Hrun).
    apply bind_return_inv in Hrun as ([] & w2 & _ & Hrun).
    apply bind_return_inv in Hrun as (rest & w3 & Hrest & Hret).
    injection Hret as <- _. simpl. f_equal. eauto.
Qed.

(** One panel slot per selected story. *)
Lemma generate_one_slot_per_story `{Env} (w w1 : world) (g : generated) :
  generate w = (Return g, w1) ->
  length (panels g) = length (selected_stories g).
Proof.
  unfold generate. intros Hrun.
  apply bind_return_inv in Hrun as (dates & wa & _ & Hrun).
  apply bind_return_inv in Hrun as (all_stories & wb & _ & Hrun).
  apply bind_return_inv in Hrun as (selected & wc & _ & Hrun).
  apply bind_return_inv in Hrun as (prompts & wd & Hprompts & Hrun).
  apply bind_return_inv in Hrun as (ps & we & Hpanels & Hret).
  injection Hret as <- _. cbn [panels selected_stories].
  apply generate_panels_length in Hpanels.
  apply generate_prompts_length in Hprompts. congruence.
Qed.

Lemma main_after_generate `{Env} (w w1 : world) (g : generated) :
  generate w = (Return g, w1) -> main w = publish g w1.
Proof. intros Hgen. unfold main, bind. now rewrite Hgen. Qed.

(** C2.  Take a run whose panel generation is over, with [g] in hand.
    If at least [MIN_PANELS_REQUIRED] panels succeeded, the run goes on
    to compose the strip and writes, in this order, the dated PNG, the
    dated JPEG, the dated metadata and the latest metadata; the dated PNG
    and metadata hold the composed strip and the metadata when the run
    ends (and the dated JPEG too, for a date that is not the name of a
    latest image), and with an archive document in place and a date that
    is not the archive's name the run returns the metadata.
    If fewer succeeded, the run raises a [RuntimeError] at the gate, in
    the world panel generation left: all it has written are scratch
    panels, so no dated image or metadata, no latest pointer and no
    archive. *)
Theorem minimum_success_gate `{Env} (w w1 : world) (g : generated) :
  generate w = (Return g, w1) ->
  let strip := compose_comic_strip (panels g) (today_display g) in
  let metadata := metadata_of (selected_stories g) (today g) in
  (MIN_PANELS_REQUIRED <= successful (panels g) ->
   (exists rest, trace (main w).2 = trace w1 ++ dated_writes g ++ rest)
   /\ fs (main w).2 !! (FULLRES_DIR, today g +:+ ".png") = Some (PNG strip)
   /\ fs (main w).2 !! (WEB_OUTPUT_DIR, today g +:+ ".json")
      = Some (MetadataJson metadata)
   /\ (today g <> "latest-1" -> today g <> "latest-2" ->
       fs (main w).2 !! (WEB_OUTPUT_DIR, today g +:+ ".jpg")
       = Some (JPEG (optimize_for_web strip) WEB_QUALITY))
   /\ (forall comics,
         holds_archive w1 comics -> today g <> "archive" ->
         (main w).1 = Return metadata))
  /\ (successful (panels g) < MIN_PANELS_REQUIRED ->
      (exists msg, main w = (Raise (RuntimeError msg), w1))
      /\ exists events, run_from w w1 events /\ Forall scratch_write events).
Proof.
  intros Hgen strip metadata. rewrite (main_after_generate w w1 g Hgen).
  split.
  - intros Hmin.
    destruct (publish_world g w1 Hmin) as (Htrace & Hpng & Hjson & _ & Hjpg & Hret).
    auto 10.
  - intros Hfew. split; [apply publish_below_gate, Hfew |].
    destruct (generate_scratch w) as (events & Hrun & Hscratch).
    rewrite Hgen in Hrun. exists events. split; assumption.
Qed.

Lemma minimum_success_gate_witness :
  let pass := Sample.five_of_six in
  let fail := Sample.three_of_six in
  (@generate pass Sample.empty_world
   = (Return (Sample.generated_in pass), Sample.world_at_gate pass)
   /\ successful (panels (Sample.generated_in pass)) = 5
   /\ (@main pass Sample.empty_world).1
      = Return (metadata_of (selected_stories (Sample.generated_in pass))
                            "2026-01-16"))
  /\ (@generate fail Sample.empty_world
      = (Return (Sample.generated_in fail), Sample.world_at_gate fail)
      /\ successful (panels (Sample.generated_in fail)) = 3
      /\ exists msg,
           @main fail Sample.empty_world
           = (Raise (RuntimeError msg), Sample.world_at_gate fail)).
Proof.
  cbv zeta. split.
  - assert (Hgen : @generate Sample.five_of_six Sample.empty_world
                   = (Return (Sample.generated_in Sample.five_of_six),
                      Sample.world_at_gate Sample.five_of_six))
      by (vm_compute; reflexivity).
    split; [exact Hgen |]. split; [vm_compute; reflexivity |].
    destruct (@minimum_success_gate Sample.five_of_six _ _ _ Hgen)
      as [Hpass _].
    destruct Hpass as (_ & _ & _ & _ & Hret).
    { vm_compute. discriminate. }
    apply (Hret []).
    + right. split; reflexivity.
    + vm_compute. discriminate.
  - assert (Hgen : @generate Sample.three_of_six Sample.empty_world
                   = (Return (Sample.generated_in Sample.three_of_six),
                      Sample.world_at_gate Sample.three_of_six))
      by (vm_compute; reflexivity).
    split; [exact Hgen |]. split; [vm_compute; reflexivity |].
    destruct (@minimum_success_gate Sample.three_of_six _ _ _ Hgen)
      as [_ Hfail].
    destruct Hfail as [Hraise _]; [vm_compute; reflexivity |].
    exact Hraise.
Defined.

Lemma metadata_of_entries (stories : list Story.t) (date_str : string) :
  length (Metadata.stories (metadata_of stories date_str)) = length stories
  /\ forall (i : nat) (s : Story.t),
       stories !! i = Some s ->
       Metadata.stories (metadata_of stories date_str) !! i
       = Some (Metadata.mkEntry (Z.of_nat i + 1) (Story.title s)
                 (Story.description s) (Story.link s)).
Proof.
  unfold metadata_of. cbn [Metadata.stories]. split.
  - apply length_imap.
  - intros i s Hi. rewrite list_lookup_imap, Hi. reflexivity.
Qed.

(** C10.  For a run through the gate, the dated metadata file and the
    latest metadata file both hold, when the run ends, the metadata
    document of the selected stories: its date and image name are those
    of the run, it has one entry per selected story, and the entry at
    position [i] (from 0) carries panel number [i + 1] and the title,
    description and link of story [i].  There is one slot per story, a
    story whose slot is absent has the same full entry, and a run with
    the same stories and date and any other panels that pass the gate
    leaves the same document in both files. *)
Theorem metadata_covers_every_story `{Env} (w w1 : world) (g : generated) :
  generate w = (Return g, w1) ->
  MIN_PANELS_REQUIRED <= successful (panels g) ->
  let metadata := metadata_of (selected_stories g) (today g) in
  fs (main w).2 !! (WEB_OUTPUT_DIR, today g +:+ ".json")
  = Some (MetadataJson metadata)
  /\ fs (main w).2 !! (WEB_OUTPUT_DIR, "latest.json")
     = Some (MetadataJson metadata)
  /\ (forall m, (main w).1 = Return m -> m = metadata)
  /\ Metadata.date metadata = today g
  /\ Metadata.image metadata = today g +:+ ".jpg"
  /\ length (Metadata.stories metadata) = length (selected_stories g)
  /\ length (panels g) = length (selected_stories g)
  /\ (forall (i : nat) (s : Story.t),
        selected_stories g !! i = Some s ->
        Metadata.stories metadata !! i
        = Some (Metadata.mkEntry (Z.of_nat i + 1) (Story.title s)
                  (Story.description s) (Story.link s)))
  /\ (forall (i : nat) (s : Story.t),
        selected_stories g !! i = Some s -> panels g !! i = Some None ->
        Metadata.stories metadata !! i
        = Some (Metadata.mkEntry (Z.of_nat i + 1) (Story.title s)
                  (Story.description s) (Story.link s)))
  /\ (forall (other : list (option Image)) (w2 : world),
        MIN_PANELS_REQUIRED <= successful other ->
        let g' := mkGenerated (today g) (today_display g)
                              (selected_stories g) other in
        fs (publish g' w2).2 !! (WEB_OUTPUT_DIR, today g +:+ ".json")
        = Some (MetadataJson metadata)
        /\ fs (publish g' w2).2 !! (WEB_OUTPUT_DIR, "latest.json")
           = Some (MetadataJson metadata)).
Proof.
  intros Hgen Hmin metadata.
  rewrite (main_after_generate w w1 g Hgen).
  destruct (publish_world g w1 Hmin) as (_ & _ & Hjson & Hlatest & _ & _).
  destruct (metadata_of_entries (selected_stories g) (today g))
    as [Hlen Hentries].
  split; [exact Hjson |]. split; [exact Hlatest |]. split.
  { intros m. rewrite (publish_through_gate g w1 Hmin).
    destruct (update_archive _ _) as [[[]|e] w6]; [| discriminate].
    intros [= <-]. reflexivity. }
  split; [reflexivity |]. split; [reflexivity |]. split; [exact Hlen |].
  split; [exact (generate_one_slot_per_story w w1 g Hgen) |].
  split; [exact Hentries |]. split.
  { intros i s Hs _. exact (Hentries i s Hs). }
  intros other w2 Hother g'.
  destruct (publish_world g' w2 Hother) as (_ & _ & Hjson' & Hlatest' & _ & _).
  split; [exact Hjson' | exact Hlatest'].
Qed.

Lemma metadata_covers_every_story_witness :
  let e := Sample.five_of_six in
  let g := Sample.generated_in e in
  @generate e Sample.empty_world = (Return g, Sample.world_at_gate e)
  /\ MIN_PANELS_REQUIRED <= successful (panels g)
  /\ panels g !! 3%nat = Some None
  /\ fs (@main e Sample.empty_world).2 !! ("output", "2026-01-16.json")
     = Some (MetadataJson (metadata_of (selected_stories g) "2026-01-16"))
  /\ Metadata.stories (metadata_of (selected_stories g) "2026-01-16") !! 3%nat
     = Some (Metadata.mkEntry 4 "Story 5" "About 5" "https://npr.example/5").
Proof.
  cbv zeta.
  assert (Hgen : @generate Sample.five_of_six Sample.empty_world
                 = (Return (Sample.generated_in Sample.five_of_six),
                    Sample.world_at_gate Sample.five_of_six))
    by (vm_compute; reflexivity).
  assert (Hmin : MIN_PANELS_REQUIRED
                 <= successful (panels (Sample.generated_in Sample.five_of_six)))
    by (vm_compute; discriminate).
  split; [exact Hgen |]. split; [exact Hmin |].
  split; [vm_compute; reflexivity |].
  destruct (@metadata_covers_every_story Sample.five_of_six _ _ _ Hgen Hmin)
    as (Hjson & _ & _ & _ & _ & _ & _ & Hentries & _).
  split; [exact Hjson |].
  apply (Hentries 3%nat (Sample.story "5")). vm_compute. reflexivity.
Defined.

(* ===================================================================== *)
(** * Worked examples                                                     *)
(* ===================================================================== *)

Example strip_sample : strip "  [1, 2]  " = "[1, 2]".
Proof. reflexivity. Qed.

Example lower_sample : lower "Vintage Comic" = "vintage comic".
Proof. reflexivity. Qed.

Example getitem_last : getitem [10; 20; 30] (-1) = Return 30.
Proof. reflexivity. Qed.

Example getitem_out_of_range : getitem [10; 20; 30] 3 = Raise IndexError.
Proof. reflexivity. Qed.

Example re_search_leftmost :
  re_search "picked [3, 7] then [1]" = Some "[3, 7]".
Proof. reflexivity. Qed.

Example re_search_needs_content : re_search "[] and [a, b]" = None.
Proof. reflexivity. Qed.

Example json_loads_array : json_loads "[3, 7,1 ]" = Return [3; 7; 1].
Proof. reflexivity. Qed.

Example json_loads_leading_zero : json_loads "[01]" = Raise JSONDecodeError.
Proof. reflexivity. Qed.

Example json_loads_trailing_comma : json_loads "[1,]" = Raise JSONDecodeError.
Proof. reflexivity. Qed.

(** A malformed answer: the first six stories, in source order. *)
Example selector_fallback :
  (@select_stories (Sample.env "I cannot choose." (Sample.images []) [])
     Sample.stories Sample.empty_world).1
  = Return (Sample.story <$> ["1"; "2"; "3"; "4"; "5"; "6"]).
Proof. reflexivity. Qed.

(** Eight indices: the first six are used. *)
Example selector_truncates :
  (@select_stories
     (Sample.env "[8, 7, 6, 5, 4, 3, 2, 1]" (Sample.images []) [])
     Sample.stories Sample.empty_world).1
  = Return (Sample.story <$> ["8"; "7"; "6"; "5"; "4"; "3"]).
Proof. reflexivity. Qed.

(** An index past the last story raises. *)
Example selector_index_out_of_range :
  (@select_stories (Sample.env "[1, 9]" (Sample.images []) [])
     Sample.stories Sample.empty_world).1
  = Raise IndexError.
Proof. reflexivity. Qed.

(** A first attempt that fails, a second that succeeds: one sleep of two
    seconds between the two requests. *)
Example one_retry :
  let run := @generate_panel_image (Sample.env "" (Sample.images [0%nat]) [])
               "a prompt" 1 Sample.empty_world in
  run.1 = Return (Some (Opened 832 1248 Sample.png_bytes))
  /\ trace run.2 = [ImageCall "a prompt"; Sleep 2; ImageCall "a prompt"].
Proof. split; reflexivity. Qed.

(** Five panels of six: the run completes, and the strip has five
    borders. *)
Example five_of_six_completes :
  let run := @main Sample.five_of_six Sample.empty_world in
  (exists m, run.1 = Return m /\ length (Metadata.stories m) = 6%nat)
  /\ length (rectangles
               (@compose_comic_strip Sample.five_of_six
                  (panels (Sample.generated_in Sample.five_of_six))
                  "January 16, 2026")) = 5%nat
  /\ is_Some (fs run.2 !! ("output", "2026-01-16.jpg"))
  /\ fs run.2 !! ("output", "archive.json")
     = Some (ArchiveJson [Sample.entry "2026-01-16"]).
Proof.
  cbv zeta. split; [| split; [| split]].
  - eexists. split; vm_compute; reflexivity.
  - vm_compute. reflexivity.
  - vm_compute. eauto.
  - vm_compute. reflexivity.
Qed.

(** Three panels of six: the run raises, and the only files are the
    three scratch panels. *)
Example three_of_six_aborts :
  let run := @main Sample.three_of_six Sample.empty_world in
  run.1 = Raise (RuntimeError
                   "Only 3/6 panels generated. Minimum required: 4. Aborting.")
  /\ (map_to_list (fs run.2)).*1
     ≡ₚ [(".tmp", "panel_4.png"); (".tmp", "panel_5.png");
         (".tmp", "panel_6.png")].
Proof.
  cbv zeta. split; [vm_compute; reflexivity |].
  vm_compute. apply NoDup_Permutation.
  - repeat constructor; rewrite ?elem_of_cons, ?elem_of_nil;
      intuition discriminate.
  - repeat constructor; rewrite ?elem_of_cons, ?elem_of_nil;
      intuition discriminate.
  - intros x. rewrite !elem_of_cons, !elem_of_nil. tauto.
Qed.

(* ===================================================================== *)
(** * Further properties: compositor and web image                        *)
(* ===================================================================== *)


Lemma borders_of_present_length (panels : list (option Image)) (i : Z) :
  length (borders_of_present i panels) = length (filter is_Some panels).
Proof.
  revert i. induction panels as [|[panel|] panels IH]; intros i;
    cbn [borders_of_present].
  - reflexivity.
  - rewrite filter_cons_True by eauto. simpl. f_equal. apply IH.
  - rewrite filter_cons_False by (intros [? ?]; discriminate). apply IH.
Qed.

Lemma cells_of_present_length (panels : list (option Image)) (i : Z) :
  length (cells_of_present i panels) = length (filter is_Some panels).
Proof.
  revert i. induction panels as [|[panel|] panels IH]; intros i;
    cbn [cells_of_present].
  - reflexivity.
  - rewrite filter_cons_True by eauto. simpl. f_equal. apply IH.
  - rewrite filter_cons_False by (intros [? ?]; discriminate). apply IH.
Qed.

(** The strip has as many borders, and as many pasted panels, as panels
    succeeded; nothing else is pasted and no other rectangle is drawn. *)
Theorem strip_shows_successful_panels `{Env} (panels : list (option Image))
  (date_str : string) :
  Z.of_nat (length (rectangles (compose_comic_strip panels date_str)))
  = successful panels
  /\ Z.of_nat (length (pastes (compose_comic_strip panels date_str)))
     = successful panels
  /\ Forall (fun r => r.1.2 = BORDER_COLOR /\ r.2 = BORDER)
            (rectangles (compose_comic_strip panels date_str))
  /\ Forall (fun c => width c.1 = PANEL_WIDTH /\ height c.1 = PANEL_HEIGHT)
            (pastes (compose_comic_strip panels date_str)).
Proof.
  unfold compose_comic_strip, successful.
  rewrite place_panels_rectangles, place_panels_pastes.
  destruct (header_blank date_str) as [-> ->]. cbn [app].
  rewrite borders_of_present_length, cells_of_present_length.
  split; [reflexivity |]. split; [reflexivity |]. split.
  - apply Forall_forall. intros r Hin. apply list_elem_of_In in Hin.
    apply borders_of_present_In in Hin as (k & p & _ & ->). split; reflexivity.
  - apply Forall_forall. intros c Hin. apply list_elem_of_In in Hin.
    apply cells_of_present_In in Hin as (k & p & _ & ->). split; reflexivity.
Qed.

(** The six cells of the grid keep clear of each other and of the edges:
    the border of each of the slots 0..5 lies on the canvas, below the
    header band, and the borders of two different slots share no pixel.
    A seventh slot would reach below the canvas. *)
Theorem grid_cells_fit (i j : Z) :
  0 <= i < NUM_PANELS -> 0 <= j < NUM_PANELS ->
  on_canvas_below_header (border_box i)
  /\ (i <> j -> disjoint_boxes (border_box i) (border_box j))
  /\ strip_height <= cell_y NUM_PANELS + PANEL_HEIGHT.
Proof.
  unfold NUM_PANELS. intros Hi Hj.
  assert (Hcase : forall k, 0 <= k < 6 ->
            k = 0 \/ k = 1 \/ k = 2 \/ k = 3 \/ k = 4 \/ k = 5) by (intros; lia).
  split; [| split].
  - destruct (Hcase i Hi) as [-> | [-> | [-> | [-> | [-> | ->]]]]];
      vm_compute; repeat split; discriminate.
  - intros Hne.
    destruct (Hcase i Hi) as [-> | [-> | [-> | [-> | [-> | ->]]]]];
      destruct (Hcase j Hj) as [-> | [-> | [-> | [-> | [-> | ->]]]]];
      try (exfalso; now apply Hne);
      unfold disjoint_boxes; cbv -[Z.lt]; lia.
  - vm_compute. discriminate.
Qed.

Lemma grid_cells_fit_witness :
  on_canvas_below_header (border_box 5)
  /\ disjoint_boxes (border_box 5) (border_box 2)
  /\ border_box 5 = (851, 739, 1257, 1345).
Proof.
  destruct (grid_cells_fit 5 2 ltac:(vm_compute; split; [discriminate | reflexivity])
              ltac:(vm_compute; split; [discriminate | reflexivity]))
    as (Hon & Hdisjoint & _).
  split; [exact Hon |]. split; [apply Hdisjoint; discriminate | reflexivity].
Defined.

(* ===================================================================== *)
(** * Further properties: prompt synthesizer                              *)
(* ===================================================================== *)

Lemma lstrip_all_space (s : string) :
  all_space s = true -> lstrip s = EmptyString.
Proof.
  induction s as [|c s IH]; simpl; [reflexivity |].
  intros [-> Hs]%andb_true_iff. auto.
Qed.

Lemma strip_all_space (s : string) : all_space s = true -> strip s = EmptyString.
Proof. intros Hs. unfold strip. now rewrite lstrip_all_space. Qed.

(** An answer of the text model that is empty or all whitespace gives
    the bare style: the canonical prefix followed by one space. *)
Theorem blank_answer_gives_bare_style `{Env} (story : Story.t) (text : string)
  (w : world) :
  generate_text (text_calls w) (PromptRequest story) = Return (Some text) ->
  all_space text = true ->
  (generate_image_prompt story w).1 = Return (STYLE_PREFIX +:+ " ").
Proof.
  intros Hanswer Hblank. unfold generate_image_prompt, bind, text_call.
  rewrite Hanswer. unfold ret, ensure_style_prefix. cbn [fst].
  rewrite (strip_all_space text Hblank). reflexivity.
Qed.

Lemma blank_answer_gives_bare_style_witness :
  all_space "  " = true
  /\ (@generate_image_prompt Scenario.blank_answers (Sample.story "1")
        Sample.empty_world).1
     = Return (STYLE_PREFIX +:+ " ").
Proof.
  split; [reflexivity |].
  eapply @blank_answer_gives_bare_style; reflexivity.
Defined.

(* ===================================================================== *)
(** * Further properties: what happens before the gate                    *)
(* ===================================================================== *)

Section Quiet.
Context {A B : Type}.

Lemma quiet_ret (a : A) : quiet (ret a).
Proof. intros w. split; reflexivity. Qed.

Lemma quiet_raise (e : exn) : quiet (@raise A e).
Proof. intros w. split; reflexivity. Qed.

Lemma quiet_lift (o : outcome A) : quiet (lift o).
Proof. intros w. split; reflexivity. Qed.

Lemma quiet_bind (m : M A) (f : A -> M B) :
  quiet m -> (forall a, quiet (f a)) -> quiet (bind m f).
Proof.
  intros Hm Hf w. unfold bind. destruct (Hm w) as [Hfs Hcalls].
  destruct (m w) as [[a|e] w1]; simpl in *.
  - destruct (Hf a w1) as [Hfs' Hcalls']. split; congruence.
  - split; assumption.
Qed.
End Quiet.

Lemma quiet_text_call `{Env} (req : text_request) : quiet (text_call req).
Proof. intros w. split; reflexivity. Qed.

Lemma select_stories_quiet `{Env} (stories : list Story.t) :
  quiet (select_stories stories).
Proof.
  unfold select_stories. apply quiet_bind; [apply quiet_text_call |].
  intros [text|]; [| apply quiet_raise].
  destruct (re_search (strip text)); [| apply quiet_ret].
  apply quiet_bind; [apply quiet_lift |]. intros indices.
  apply quiet_bind; [apply quiet_lift |]. intros selected. apply quiet_ret.
Qed.

Lemma generate_image_prompt_quiet `{Env} (story : Story.t) :
  quiet (generate_image_prompt story).
Proof.
  unfold generate_image_prompt. apply quiet_bind; [apply quiet_text_call |].
  intros [text|]; [apply quiet_ret | apply quiet_raise].
Qed.

Lemma generate_prompts_quiet `{Env} (stories : list Story.t) :
  quiet (generate_prompts stories).
Proof.
  induction stories as [|story stories IH]; cbn [generate_prompts].
  - apply quiet_ret.
  - apply quiet_bind; [apply generate_image_prompt_quiet |]. intros prompt.
    apply quiet_bind; [exact IH |]. intros prompts. apply quiet_ret.
Qed.

(** A call of the panel generator returns, after one to three image
    requests, with the files and the count of text requests as they
    were. *)
Lemma generate_panel_image_returns `{Env} (prompt : string) (panel_num : Z)
  (w : world) :
  exists r w',
    generate_panel_image prompt panel_num w = (Return r, w')
    /\ fs w' = fs w /\ text_calls w' = text_calls w
    /\ (image_calls w + 1 <= image_calls w' <= image_calls w + 3)%nat.
Proof.
  rewrite generate_panel_image_cases. cbv zeta.
  destruct (attempt_result (image_calls w) prompt);
    [eexists _, _; split; [reflexivity |]; cbn; repeat split; lia |].
  destruct (attempt_result (image_calls w + 1) prompt);
    [eexists _, _; split; [reflexivity |]; cbn; repeat split; lia |].
  destruct (attempt_result (image_calls w + 2) prompt);
    eexists _, _; (split; [reflexivity |]); cbn; repeat split; lia.
Qed.

(** Panel generation always comes to its end: it returns one slot per
    prompt, whatever the image model does, after at least one and at most
    [MAX_RETRIES] image requests per prompt and no text request; no more
    panels succeed than there are prompts. *)
Theorem generate_panels_total `{Env} (prompts : list string) (i : Z)
  (w : world) :
  exists ps w',
    generate_panels i prompts w = (Return ps, w')
    /\ length ps = length prompts
    /\ text_calls w' = text_calls w
    /\ (image_calls w + length prompts <= image_calls w')%nat
    /\ Z.of_nat (image_calls w')
       <= Z.of_nat (image_calls w) + MAX_RETRIES * Z.of_nat (length prompts)
    /\ 0 <= successful ps <= Z.of_nat (length prompts).
Proof.
  revert i w. induction prompts as [|prompt prompts IH]; intros i w;
    cbn [generate_panels].
  - exists [], w. unfold ret, successful, MAX_RETRIES. cbn.
    repeat split; lia.
  - destruct (generate_panel_image_returns prompt (i + 1) w)
      as (panel & w1 & Hrun & Hfs & Htext & Hcalls).
    unfold bind at 1. rewrite Hrun.
    set (saved := match panel with
                  | Some im => write_file _ (PNG im)
                  | None => ret tt
                  end).
    assert (Hsaved : exists w2, saved w1 = (Return tt, w2)
                                /\ text_calls w2 = text_calls w1
                                /\ image_calls w2 = image_calls w1).
    { subst saved. destruct panel; eexists; split; reflexivity || auto. }
    destruct Hsaved as (w2 & Hsave & Htext2 & Hcalls2).
    unfold bind at 1. rewrite Hsave.
    destruct (IH (i + 1) w2) as (ps & w3 & Hrest & Hlen & Htext3 & Hlo & Hhi & Hsucc).
    unfold bind at 1. rewrite Hrest. unfold ret.
    exists (panel :: ps), w3. split; [reflexivity |].
    unfold MAX_RETRIES in *. cbn [length].
    split; [lia |]. split; [congruence |]. split; [lia |]. split; [lia |].
    unfold successful in *.
    destruct panel as [im|].
    + rewrite filter_cons_True by eauto. cbn [length]. lia.
    + rewrite filter_cons_False by (intros [? ?]; discriminate). lia.
Qed.



(** The date of a run started with an argument is that argument, as it
    was typed: a date [strptime] rejects stops the run with a
    [ValueError] before any request or write, and a date it accepts
    names the files of the run verbatim. *)
Theorem override_date_is_taken_verbatim `{Env} (w : world)
  (prog d : string) (rest : list string) :
  argv = prog :: d :: rest ->
  (strptime_display d = None ->
   exists msg, main w = (Raise (ValueError msg), w))
  /\ (forall g w1,
        generate w = (Return g, w1) ->
        today g = d /\ strptime_display d = Some (today_display g)).
Proof.
  intros Hargv. split.
  - intros Hbad. unfold main, generate. rewrite Hargv, Hbad.
    eexists. reflexivity.
  - intros g w1. unfold generate. rewrite Hargv.
    destruct (strptime_display d) as [display|]; [| discriminate].
    unfold bind at 1. unfold ret at 1. intros Hrun.
    apply bind_return_inv in Hrun as (all_stories & wb & _ & Hrun).
    apply bind_return_inv in Hrun as (selected & wc & _ & Hrun).
    apply bind_return_inv in Hrun as (prompts & wd & _ & Hrun).
    apply bind_return_inv in Hrun as (ps & we & _ & Hret).
    injection Hret as <- _. split; reflexivity.
Qed.

Lemma override_date_is_taken_verbatim_witness :
  @argv Scenario.bad_date = ["ai_things_considered.py"; "16/01/2026"]
  /\ (exists msg,
        @main Scenario.bad_date Sample.empty_world
        = (Raise (ValueError msg), Sample.empty_world))
  /\ today (Sample.generated_in Sample.three_of_six) = "2026-01-17".
Proof.
  split; [reflexivity |]. split.
  - destruct (@override_date_is_taken_verbatim Scenario.bad_date
                Sample.empty_world _ _ _ eq_refl) as [Hbad _].
    apply Hbad. reflexivity.
  - destruct (@override_date_is_taken_verbatim Sample.three_of_six
                Sample.empty_world _ _ _ eq_refl) as [_ Hgood].
    apply (Hgood _ (Sample.world_at_gate Sample.three_of_six)).
    vm_compute. reflexivity.
Defined.

(* ===================================================================== *)
(** * Further properties: requests of a run                               *)
(* ===================================================================== *)

Section KeepsCalls.
Context {A B : Type}.

Lemma keeps_calls_ret (a : A) : keeps_calls (ret a).
Proof. intros w. split; reflexivity. Qed.

Lemma keeps_calls_raise (e : exn) : keeps_calls (@raise A e).
Proof. intros w. split; reflexivity. Qed.

Lemma keeps_calls_bind (m : M A) (f : A -> M B) :
  keeps_calls m -> (forall a, keeps_calls (f a)) -> keeps_calls (bind m f).
Proof.
  intros Hm Hf w. unfold bind. destruct (Hm w) as [Ht Hi].
  destruct (m w) as [[a|e] w1]; simpl in *.
  - destruct (Hf a w1) as [Ht' Hi']. split; congruence.
  - split; assumption.
Qed.
End KeepsCalls.

Lemma keeps_calls_write_file (p : path) (c : file) :
  keeps_calls (write_file p c).
Proof. intros w. split; reflexivity. Qed.

Lemma keeps_calls_read_file (p : path) : keeps_calls (read_file p).
Proof. intros w. split; reflexivity. Qed.

Lemma keeps_calls_copy (src dst : path) : keeps_calls (copy src dst).
Proof.
  unfold copy. apply keeps_calls_bind; [apply keeps_calls_read_file |].
  intros [c|]; [apply keeps_calls_write_file | apply keeps_calls_raise].
Qed.

Lemma keeps_calls_update_latest_images `{Env} : keeps_calls update_latest_images.
Proof.
  intros w. unfold update_latest_images.
  set (comics := sorted_glob_desc _ _ _).
  assert (Hinner : keeps_calls
            (do _ <- match comics !! 0%nat with
                     | Some c => copy (WEB_OUTPUT_DIR, c)
                                      (WEB_OUTPUT_DIR, "latest-1.jpg")
                     | None => ret tt
                     end;
             match comics !! 1%nat with
             | Some c => copy (WEB_OUTPUT_DIR, c)
                              (WEB_OUTPUT_DIR, "latest-2.jpg")
             | None => ret tt
             end)).
  { apply keeps_calls_bind.
    - destruct (comics !! 0%nat); [apply keeps_calls_copy | apply keeps_calls_ret].
    - intros _.
      destruct (comics !! 1%nat); [apply keeps_calls_copy | apply keeps_calls_ret]. }
  exact (Hinner w).
Qed.

Lemma keeps_calls_update_archive `{Env} (date_str : string) :
  keeps_calls (update_archive date_str).
Proof.
  unfold update_archive. apply keeps_calls_bind; [apply keeps_calls_read_file |].
  intros existing. apply keeps_calls_bind.
  - destruct existing as [[]|];
      first [apply keeps_calls_ret | apply keeps_calls_raise].
  - intros comics.
    destruct (bool_decide _); [apply keeps_calls_ret | apply keeps_calls_write_file].
Qed.

Lemma keeps_calls_publish `{Env} (g : generated) : keeps_calls (publish g).
Proof.
  unfold publish.
  destruct (successful (panels g) <? MIN_PANELS_REQUIRED);
    [apply keeps_calls_raise |].
  apply keeps_calls_bind; [apply keeps_calls_write_file |]. intros _.
  apply keeps_calls_bind; [apply keeps_calls_write_file |]. intros _.
  apply keeps_calls_bind.
  { unfold save_metadata.
    apply keeps_calls_bind; [apply keeps_calls_write_file |]. intros _.
    apply keeps_calls_bind; [apply keeps_calls_write_file |]. intros _.
    apply keeps_calls_ret. }
  intros metadata.
  apply keeps_calls_bind; [apply keeps_calls_update_latest_images |]. intros _.
  apply keeps_calls_bind; [apply keeps_calls_update_archive |]. intros _.
  apply keeps_calls_ret.
Qed.

Lemma comprehension_length {A B : Type} (f : A -> outcome B) (l : list A)
  (r : list B) :
  comprehension f l = Return r -> length r = length l.
Proof.
  revert r. induction l as [|x l IH]; intros r; simpl.
  - intros [= <-]. reflexivity.
  - destruct (f x) as [y|]; [| discriminate].
    destruct (comprehension f l) as [ys|]; [| discriminate].
    intros [= <-]. simpl. f_equal. auto.
Qed.

(** The selector makes one text request, and what it returns has at most
    [NUM_PANELS] stories. *)
Lemma select_stories_budget `{Env} (stories : list Story.t) (w : world) :
  text_calls (select_stories stories w).2 = S (text_calls w)
  /\ image_calls (select_stories stories w).2 = image_calls w
  /\ forall selected,
       (select_stories stories w).1 = Return selected ->
       (length selected <= 6)%nat.
Proof.
  split; [| split].
  - unfold select_stories, bind, text_call.
    destruct (generate_text (text_calls w) (SelectRequest stories))
      as [[text|]|e]; try reflexivity.
    destruct (re_search (strip text)) as [m|]; [| reflexivity].
    unfold lift. destruct (json_loads m) as [indices|]; [| reflexivity].
    destruct (comprehension _ _); reflexivity.
  - apply select_stories_quiet.
  - intros selected. rewrite select_stories_result.
    destruct (generate_text (text_calls w) (SelectRequest stories))
      as [[text|]|e]; try discriminate.
    destruct (re_search (strip text)) as [m|].
    + destruct (json_loads m) as [indices|]; [| discriminate].
      intros Hsel. apply comprehension_length in Hsel. rewrite Hsel.
      rewrite slice_to_NUM_PANELS, length_take. lia.
    + intros [= <-]. rewrite slice_to_NUM_PANELS, length_take. lia.
Qed.

Lemma generate_prompts_budget `{Env} (stories : list Story.t) (w w' : world)
  (r : outcome (list string)) :
  generate_prompts stories w = (r, w') ->
  (text_calls w <= text_calls w' <= text_calls w + length stories)%nat.
Proof.
  revert w w' r. induction stories as [|story stories IH]; intros w w' r;
    cbn [generate_prompts].
  - intros [= _ <-]. cbn. lia.
  - unfold bind at 1, generate_image_prompt at 1, bind at 1, text_call at 1.
    destruct (generate_text (text_calls w) (PromptRequest story))
      as [[text|]|e]; unfold ret, raise; cbn [length];
      try (intros [= _ <-]; cbn; lia).
    unfold bind at 1.
    match goal with |- context [generate_prompts stories ?w1] =>
      specialize (IH w1);
      destruct (generate_prompts stories w1) as [[ps|e] w2]
    end; specialize (IH _ _ eq_refl); cbn [text_calls] in IH;
      intros [= _ <-]; lia.
Qed.

(** A run makes at most [1 + NUM_PANELS] text requests and at most
    [MAX_RETRIES * NUM_PANELS] image requests, however it ends. *)
Theorem run_request_budget `{Env} (w : world) :
  Z.of_nat (text_calls (main w).2) <= Z.of_nat (text_calls w) + 1 + NUM_PANELS
  /\ Z.of_nat (image_calls (main w).2)
     <= Z.of_nat (image_calls w) + MAX_RETRIES * NUM_PANELS.
Proof.
  assert (Hgen : forall r w1, generate w = (r, w1) ->
                   (text_calls w1 <= text_calls w + 7
                    /\ image_calls w1 <= image_calls w + 18)%nat).
  { intros r w1. unfold generate, fetch_stories.
    set (dates := match argv with
                  | _ :: today :: _ =>
                      match strptime_display today with
                      | Some display => ret (today, display)
                      | None => raise (ValueError "time data does not match format")
                      end
                  | _ => ret (now_iso, now_display)
                  end).
    assert (Hdates : exists o, dates w = (o, w)).
    { subst dates. destruct argv as [|? [|today ?]]; try (eexists; reflexivity).
      destruct (strptime_display today); eexists; reflexivity. }
    destruct Hdates as [o Hdates]. unfold bind at 1. rewrite Hdates.
    destruct o as [d|e]; [| intros [= _ <-]; lia].
    unfold bind at 1. unfold ret at 1. unfold bind at 1.
    destruct (select_stories_budget feed_entries w) as (Ht1 & Hi1 & Hlen).
    destruct (select_stories feed_entries w) as [[selected|e1] wb];
      cbn [fst snd] in *; [| intros [= _ <-]; lia].
    specialize (Hlen selected eq_refl).
    unfold bind at 1.
    pose proof (fun r w' => generate_prompts_budget selected wb w' r) as Ht2.
    destruct (generate_prompts_quiet selected wb) as [_ Hi2].
    pose proof (generate_prompts_length selected wb) as Hplen.
    destruct (generate_prompts selected wb) as [[prompts|e2] wc];
      cbn [fst snd] in *; specialize (Ht2 _ _ eq_refl);
      [| intros [= _ <-]; lia].
    specialize (Hplen wc prompts eq_refl).
    unfold bind at 1.
    destruct (generate_panels_total prompts 0 wc)
      as (ps & wd & -> & _ & Ht3 & _ & Hi3 & _).
    unfold ret. intros [= _ <-]. unfold MAX_RETRIES in Hi3. lia. }
  unfold main, bind.
  destruct (generate w) as [[g|e] w1] eqn:Hrun;
    destruct (Hgen _ _ eq_refl) as [Ht Hi]; cbn [snd].
  - destruct (keeps_calls_publish g w1) as [-> ->].
    unfold NUM_PANELS, MAX_RETRIES. lia.
  - unfold NUM_PANELS, MAX_RETRIES. lia.
Qed.

Lemma generate_prompts_styled `{Env} (stories : list Story.t) (w w' : world)
  (prompts : list string) :
  generate_prompts stories w = (Return prompts, w') ->
  Forall (fun p => startswith (lower p) "vintage" = true) prompts.
Proof.
  revert w w' prompts. induction stories as [|story stories IH];
    intros w w' prompts; cbn [generate_prompts].
  - intros [= <- _]. constructor.
  - intros Hrun.
    apply bind_return_inv in Hrun as (prompt & w1 & Hprompt & Hrun).
    apply bind_return_inv in Hrun as (rest & w2 & Hrest & Hret).
    injection Hret as <- _. constructor; [| eauto].
    unfold generate_image_prompt in Hprompt.
    apply bind_return_inv in Hprompt as ([text|] & w0 & _ & Hret);
      [| discriminate].
    injection Hret as <- _. apply ensure_style_prefix_spec.
Qed.

Lemma generate_panel_image_styled `{Env} (prompt : string) (panel_num : Z) :
  startswith (lower prompt) "vintage" = true ->
  emits styled_request (generate_panel_image prompt panel_num).
Proof.
  intros Hstyled. unfold generate_panel_image.
  induction (range 1 (MAX_RETRIES + 1)) as [|attempt rest IH];
    cbn [attempts_loop].
  - apply emits_ret.
  - apply emits_bind.
    + apply emits_try_except.
      * unfold attempt_body. apply emits_bind.
        -- apply emits_bind; [apply emits_image_call, Hstyled |].
           intros response. apply emits_lift.
        -- intros im. apply emits_ret.
      * intros _. apply emits_bind; [| intros _; apply emits_ret].
        unfold on_failure, sleep.
        destruct (attempt <? MAX_RETRIES); [| apply emits_ret].
        apply emits_emit; [intros ? ?; discriminate | exact I].
    + intros [im|]; [apply emits_ret | exact IH].
Qed.

Lemma generate_panels_styled `{Env} (prompts : list string) (i : Z) :
  Forall (fun p => startswith (lower p) "vintage" = true) prompts ->
  emits styled_request (generate_panels i prompts).
Proof.
  intros Hall. revert i. induction Hall as [|prompt prompts Hp _ IH];
    intros i; cbn [generate_panels].
  - apply emits_ret.
  - apply emits_bind; [apply generate_panel_image_styled, Hp |].
    intros panel. apply emits_bind.
    + destruct panel; [apply emits_write_file; exact I | apply emits_ret].
    + intros _. apply emits_bind; [apply IH |]. intros ps. apply emits_ret.
Qed.

Lemma update_latest_images_emits `{Env} (P : event -> Prop) :
  (forall p c, P (Write p c)) -> emits P update_latest_images.
Proof.
  intros HP w. unfold update_latest_images.
  set (comics := sorted_glob_desc _ _ _).
  assert (Hinner : emits P
            (do _ <- match comics !! 0%nat with
                     | Some c => copy (WEB_OUTPUT_DIR, c)
                                      (WEB_OUTPUT_DIR, "latest-1.jpg")
                     | None => ret tt
                     end;
             match comics !! 1%nat with
             | Some c => copy (WEB_OUTPUT_DIR, c)
                              (WEB_OUTPUT_DIR, "latest-2.jpg")
             | None => ret tt
             end)).
  { apply emits_bind.
    - destruct (comics !! 0%nat); [| apply emits_ret].
      apply copy_emits. intros c. apply HP.
    - intros _. destruct (comics !! 1%nat); [| apply emits_ret].
      apply copy_emits. intros c. apply HP. }
  exact (Hinner w).
Qed.

Lemma update_archive_emits `{Env} (P : event -> Prop) (date_str : string) :
  (forall p c, P (Write p c)) -> emits P (update_archive date_str).
Proof.
  intros HP. unfold update_archive.
  apply emits_bind; [apply emits_read_file |]. intros existing.
  apply emits_bind.
  - destruct existing as [[]|]; first [apply emits_ret | apply emits_raise].
  - intros comics.
    destruct (bool_decide _); [apply emits_ret | apply emits_write_file, HP].
Qed.

Lemma publish_emits `{Env} (P : event -> Prop) (g : generated) :
  (forall p c, P (Write p c)) -> emits P (publish g).
Proof.
  intros HP. unfold publish.
  destruct (successful (panels g) <? MIN_PANELS_REQUIRED);
    [apply emits_raise |].
  apply emits_bind; [apply emits_write_file, HP |]. intros _.
  apply emits_bind; [apply emits_write_file, HP |]. intros _.
  apply emits_bind.
  { unfold save_metadata.
    apply emits_bind; [apply emits_write_file, HP |]. intros _.
    apply emits_bind; [apply emits_write_file, HP |]. intros _.
    apply emits_ret. }
  intros metadata.
  apply emits_bind; [apply update_latest_images_emits, HP |]. intros _.
  apply emits_bind; [apply update_archive_emits, HP |]. intros _.
  apply emits_ret.
Qed.

(** Every image request of a run, first attempt or retry, carries a
    prompt that begins, case-insensitively, with the style keyword. *)
Theorem every_image_request_is_styled `{Env} (w : world) :
  exists events,
    trace (main w).2 = trace w ++ events /\ Forall styled_request events.
Proof.
  assert (Hmain : emits styled_request main).
  { unfold main. apply emits_bind; [| intros g; apply publish_emits; intros; exact I].
    unfold generate, fetch_stories. apply emits_bind.
    { destruct argv as [|? [|today ?]]; try apply emits_ret.
      destruct (strptime_display today); [apply emits_ret | apply emits_raise]. }
    intros dates. apply emits_bind; [apply emits_ret |]. intros all_stories.
    apply emits_bind.
    { unfold select_stories. apply emits_bind; [apply emits_text_call; exact I |].
      intros [text|]; [| apply emits_raise].
      destruct (re_search (strip text)); [| apply emits_ret].
      apply emits_bind; [apply emits_lift |]. intros indices.
      apply emits_bind; [apply emits_lift |]. intros selected. apply emits_ret. }
    intros selected.
    apply emits_bind_value
      with (Q := Forall (fun p => startswith (lower p) "vintage" = true)).
    - clear. induction selected as [|story stories IH]; cbn [generate_prompts].
      + apply emits_ret.
      + apply emits_bind.
        * unfold generate_image_prompt.
          apply emits_bind; [apply emits_text_call; exact I |].
          intros [text|]; [apply emits_ret | apply emits_raise].
        * intros prompt. apply emits_bind; [exact IH |].
          intros prompts. apply emits_ret.
    - intros w0 prompts w' Hrun. eapply generate_prompts_styled, Hrun.
    - intros prompts Hstyled.
      apply emits_bind; [apply generate_panels_styled, Hstyled |].
      intros ps. apply emits_ret. }
  destruct (Hmain w) as (events & [Htrace _] & Hall).
  exists events. split; assumption.
Qed.

(* ===================================================================== *)
(** * Further properties: scratch panels                                  *)
(* ===================================================================== *)



(* ===================================================================== *)
(** * Further properties: archive                                         *)
(* ===================================================================== *)

Lemma update_archive_step `{Env} (date_str : string) (comics : Archive.t)
  (w : world) :
  holds_archive w comics ->
  holds_archive (update_archive date_str w).2
    (if bool_decide (date_str ∈ Archive.date <$> comics) then comics
     else Archive.mkEntry date_str (date_str +:+ ".jpg") :: comics).
Proof.
  intros Hholds.
  destruct (update_archive_once date_str comics w Hholds)
    as (w' & -> & _ & _ & Hdoc). cbn [snd].
  destruct (bool_decide (date_str ∈ Archive.date <$> comics)).
  - now subst w'.
  - left. rewrite Hdoc. apply lookup_insert_eq.
Qed.

(** Starting without an archive file, the archive steps of any sequence
    of runs leave an archive that lists each date of the sequence once,
    the date added last in front, every entry naming the JPEG of its
    date.  With no run at all there is still no file. *)
Theorem archive_lists_each_date_once `{Env} (dates : list string) (w : world) :
  fs w !! (WEB_OUTPUT_DIR, "archive.json") = None ->
  exists comics,
    holds_archive (archive_after dates w) comics
    /\ Archive.date <$> comics = remove_dups (reverse dates)
    /\ NoDup (Archive.date <$> comics)
    /\ (forall d, d ∈ Archive.date <$> comics <-> d ∈ dates)
    /\ Forall (fun e => Archive.image e = Archive.date e +:+ ".jpg") comics.
Proof.
  intros Hnone.
  assert (Hmain : exists comics,
            holds_archive (archive_after dates w) comics
            /\ Archive.date <$> comics = remove_dups (reverse dates)
            /\ Forall (fun e => Archive.image e = Archive.date e +:+ ".jpg")
                      comics).
  { induction dates as [|d dates IH] using rev_ind.
    - exists []. split; [right; split; [exact Hnone | reflexivity] |].
      split; [reflexivity | constructor].
    - destruct IH as (comics & Hholds & Hdates & Himages).
      unfold archive_after in *. rewrite foldl_snoc.
      pose proof (update_archive_step d comics _ Hholds) as Hstep.
      rewrite reverse_snoc. cbn [remove_dups].
      destruct (decide_rel elem_of d (reverse dates)) as [Hin | Hnotin].
      + rewrite bool_decide_eq_true_2 in Hstep
          by (rewrite Hdates, elem_of_remove_dups; exact Hin).
        exists comics. auto.
      + rewrite bool_decide_eq_false_2 in Hstep
          by (rewrite Hdates, elem_of_remove_dups; exact Hnotin).
        eexists. split; [exact Hstep |]. split.
        * rewrite fmap_cons, Hdates. reflexivity.
        * constructor; [reflexivity | exact Himages]. }
  destruct Hmain as (comics & Hholds & Hdates & Himages).
  exists comics. split; [exact Hholds |]. split; [exact Hdates |].
  split; [rewrite Hdates; apply NoDup_remove_dups |].
  split; [| exact Himages].
  intros d. rewrite Hdates, elem_of_remove_dups. apply elem_of_reverse.
Qed.

Lemma archive_lists_each_date_once_witness :
  fs Sample.empty_world !! ("output", "archive.json") = None
  /\ fs (@archive_after Sample.five_of_six
           ["2026-01-15"; "2026-01-16"; "2026-01-15"; "2026-01-17"]
           Sample.empty_world) !! ("output", "archive.json")
     = Some (ArchiveJson (Sample.entry <$>
                            ["2026-01-17"; "2026-01-16"; "2026-01-15"]))
  /\ exists comics,
       @holds_archive Sample.five_of_six
         (@archive_after Sample.five_of_six
            ["2026-01-15"; "2026-01-16"; "2026-01-15"; "2026-01-17"]
            Sample.empty_world) comics
       /\ NoDup (Archive.date <$> comics).
Proof.
  split; [reflexivity |]. split; [vm_compute; reflexivity |].
  destruct (@archive_lists_each_date_once Sample.five_of_six
              ["2026-01-15"; "2026-01-16"; "2026-01-15"; "2026-01-17"]
              Sample.empty_world eq_refl)
    as (comics & Hholds & _ & Hnodup & _).
  exists comics. split; assumption.
Defined.

Lemma update_archive_unreadable `{Env} (date_str : string) (w : world)
  (c : file) :
  fs w !! (WEB_OUTPUT_DIR, "archive.json") = Some c ->
  (forall comics, c <> ArchiveJson comics) ->
  exists e, update_archive date_str w = (Raise e, w)
            /\ (forall m, c = MetadataJson m -> e = KeyError "comics").
Proof.
  intros Hfile Hnot. unfold update_archive, bind, read_file. rewrite Hfile.
  destruct c as [im|im q|m|comics|raw];
    try (exfalso; eapply Hnot; reflexivity);
    (eexists; split; [reflexivity |]);
    first [discriminate | intros; reflexivity].
Qed.



(* ===================================================================== *)
(** * Further properties: latest images                                   *)
(* ===================================================================== *)

Lemma name_ge_refl (a : string) : name_ge a a.
Proof.
  unfold name_ge. destruct (String.leb_total a a) as [Hle | Hle]; exact Hle.
Qed.

#[local] Instance name_ge_trans : Transitive name_ge.
Proof.
  intros a b c Hab Hbc. unfold name_ge in *.
  apply Is_true_true. apply Is_true_true in Hab, Hbc.
  exact (transitivity (R := String.le) Hbc Hab).
Qed.

#[local] Instance name_ge_total : Total name_ge.
Proof.
  intros a b. unfold name_ge.
  destruct (String.leb_total a b) as [Hle | Hle]; auto.
Qed.

Lemma listdir_elem_of (dir name : string) (files : gmap path file) :
  name ∈ listdir dir files <-> is_Some (files !! (dir, name)).
Proof.
  unfold listdir. rewrite list_elem_of_omap. split.
  - intros ([[d n] c] & Hin & Hsome). apply elem_of_map_to_list in Hin.
    simpl in Hsome. destruct (decide (d = dir)) as [-> |]; [| discriminate].
    injection Hsome as ->. eauto.
  - intros [c Hc]. exists ((dir, name), c). split.
    + now apply elem_of_map_to_list.
    + simpl. destruct (decide (dir = dir)); [reflexivity | contradiction].
Qed.

Lemma listdir_NoDup (dir : string) (files : gmap path file) :
  NoDup (listdir dir files).
Proof.
  unfold listdir. pose proof (NoDup_fst_map_to_list files) as Hkeys.
  induction (map_to_list files) as [|[[d n] c] l IH]; [constructor |].
  rewrite fmap_cons in Hkeys. apply NoDup_cons in Hkeys as [Hnotin Hkeys].
  cbn [omap list_omap]. simpl.
  destruct (decide (d = dir)) as [-> |]; [| auto].
  apply NoDup_cons. split; [| auto].
  rewrite list_elem_of_omap. intros ([[d' n'] c'] & Hin & Hsome).
  simpl in Hsome. destruct (decide (d' = dir)) as [-> |]; [| discriminate].
  injection Hsome as ->. apply Hnotin.
  apply list_elem_of_fmap. exists ((dir, n), c'). split; [reflexivity | exact Hin].
Qed.

(** The listing [update_latest_images] works from: the names of the
    directory that match the pattern, each once, in descending order. *)
Lemma sorted_glob_desc_spec (dir pattern : string) (files : gmap path file) :
  (forall n, n ∈ sorted_glob_desc dir pattern files
             <-> fnmatch pattern n = true /\ is_Some (files !! (dir, n)))
  /\ NoDup (sorted_glob_desc dir pattern files)
  /\ StronglySorted name_ge (sorted_glob_desc dir pattern files).
Proof.
  unfold sorted_glob_desc. split; [| split].
  - intros n. rewrite merge_sort_Permutation, list_elem_of_filter.
    now rewrite listdir_elem_of.
  - rewrite merge_sort_Permutation. apply NoDup_filter, listdir_NoDup.
  - apply StronglySorted_merge_sort; apply _.
Qed.

(** [update_latest_images] cannot fail.  Afterwards [latest-1.jpg] is a
    copy of the dated JPEG whose name is greatest, [latest-2.jpg] a copy
    of the one whose name comes next; with fewer than one or two dated
    JPEGs the corresponding file is left as it was; and no other file
    changes.  A dated JPEG is one whose name matches [????-??-??.jpg]. *)
Theorem latest_images_are_the_newest `{Env} (w : world) :
  let dated n :=
    fnmatch "????-??-??.jpg" n = true /\ is_Some (fs w !! (WEB_OUTPUT_DIR, n)) in
  let w' := (update_latest_images w).2 in
  let latest1 := (WEB_OUTPUT_DIR, "latest-1.jpg") in
  let latest2 := (WEB_OUTPUT_DIR, "latest-2.jpg") in
  (update_latest_images w).1 = Return tt
  /\ (forall p, p <> latest1 -> p <> latest2 -> fs w' !! p = fs w !! p)
  /\ ((forall n, ~ dated n) -> fs w' = fs w)
  /\ (forall n, dated n ->
        exists first,
          dated first
          /\ (forall m, dated m -> String.leb m first = true)
          /\ fs w' !! latest1 = fs w !! (WEB_OUTPUT_DIR, first)
          /\ ((forall m, dated m -> m = first) ->
              fs w' !! latest2 = fs w !! latest2)
          /\ (forall m, dated m -> m <> first ->
                exists second,
                  dated second /\ second <> first
                  /\ (forall k, dated k -> k <> first ->
                                String.leb k second = true)
                  /\ fs w' !! latest2 = fs w !! (WEB_OUTPUT_DIR, second))).
Proof.
  intros dated w' latest1 latest2.
  split; [apply update_latest_images_returns |].
  destruct (update_latest_images_writes w) as (events & [_ Hfs] & Hlatest).
  fold w' in Hfs.
  split.
  { intros p H1 H2. rewrite Hfs. apply replay_lookup_other.
    apply latest_write_other; assumption. }
  destruct (sorted_glob_desc_spec WEB_OUTPUT_DIR "????-??-??.jpg" (fs w))
    as (Hmem & Hnodup & Hsorted).
  subst w'. unfold update_latest_images in *.
  set (comics := sorted_glob_desc _ _ _) in *.
  assert (Hnot_latest : forall c, c ∈ comics -> c <> "latest-1.jpg").
  { intros c Hc ->. apply Hmem in Hc as [Hmatch _]. discriminate Hmatch. }
  unfold bind, copy, read_file, write_file, bind, ret, raise.
  destruct comics as [|c0 [|c1 rest]] eqn:Hcomics; cbn [lookup list_lookup].
  - split; [reflexivity |]. intros n Hn. apply Hmem in Hn. inversion Hn.
  - assert (Hc0 : dated c0) by (apply Hmem; left).
    destruct Hc0 as [Hm0 [f0 Hf0]]. rewrite Hf0. cbn [snd fs].
    split.
    { intros Hnone. exfalso. apply (Hnone c0). split; eauto. }
    intros n Hn. exists c0. split; [split; eauto |].
    assert (Honly : forall m, dated m -> m = c0).
    { intros m Hm. apply Hmem in Hm. apply list_elem_of_singleton in Hm. exact Hm. }
    split; [intros m Hm; rewrite (Honly m Hm); apply name_ge_refl |].
    split; [unfold latest1; rewrite lookup_insert_eq; now rewrite Hf0 |].
    split.
    + intros _. unfold latest2. now rewrite lookup_insert_ne by discriminate.
    + intros m Hm Hne. exfalso. apply Hne, Honly, Hm.
  - assert (Hc0 : dated c0) by (apply Hmem; left).
    assert (Hc1 : dated c1) by (apply Hmem; right; left).
    destruct Hc0 as [Hm0 [f0 Hf0]]. destruct Hc1 as [Hm1 [f1 Hf1]].
    rewrite Hf0. cbn [snd fs].
    rewrite lookup_insert_ne, Hf1
      by (intros [= Heq]; apply (Hnot_latest c1); [right; left | now symmetry]).
    cbn [snd fs].
    split.
    { intros Hnone. exfalso. apply (Hnone c0). split; eauto. }
    apply NoDup_cons in Hnodup as [Hnotin0 Hnodup].
    apply StronglySorted_inv in Hsorted as [Hsorted Hall0].
    apply StronglySorted_inv in Hsorted as [_ Hall1].
    intros n Hn. exists c0. split; [split; eauto |].
    split.
    { intros m Hm. apply Hmem in Hm. apply elem_of_cons in Hm as [-> | Hm].
      - apply name_ge_refl.
      - rewrite Forall_forall in Hall0. apply (Hall0 m Hm). }
    split.
    { unfold latest1. rewrite lookup_insert_ne by discriminate.
      rewrite lookup_insert_eq. now rewrite Hf0. }
    split.
    { intros Honly. exfalso. apply Hnotin0.
      rewrite <- (Honly c1) by (split; eauto). left. }
    intros m Hm Hne. exists c1. split; [split; eauto |].
    split; [intros ->; apply Hnotin0; left |].
    split.
    { intros k Hk Hkne. apply Hmem in Hk.
      apply elem_of_cons in Hk as [-> | Hk]; [contradiction |].
      apply elem_of_cons in Hk as [-> | Hk]; [apply name_ge_refl |].
      rewrite Forall_forall in Hall1. apply (Hall1 k Hk). }
    unfold latest2. rewrite lookup_insert_eq. now rewrite Hf1.
Qed.

(* ===================================================================== *)
(** * Further properties: how a run ends                                  *)
(* ===================================================================== *)

Lemma update_archive_returned `{Env} (date_str : string) (w w' : world) :
  update_archive date_str w = (Return tt, w') ->
  exists comics,
    fs w' !! (WEB_OUTPUT_DIR, "archive.json") = Some (ArchiveJson comics)
    /\ date_str ∈ Archive.date <$> comics.
Proof.
  unfold update_archive, bind, read_file, write_file, ret, raise.
  destruct (fs w !! (WEB_OUTPUT_DIR, "archive.json")) as [[| | |comics|]|] eqn:Hfile;
    try discriminate.
  - destruct (bool_decide (date_str ∈ Archive.date <$> comics)) eqn:E.
    + intros [= <-]. apply bool_decide_eq_true in E. eauto.
    + intros [= <-]. cbn [fs]. eexists. split; [apply lookup_insert_eq |].
      rewrite fmap_cons. left.
  - cbn. intros [= <-]. cbn [fs]. eexists. split; [apply lookup_insert_eq |].
    rewrite fmap_cons. left.
Qed.

(** A run that returns has published: at least [MIN_PANELS_REQUIRED]
    panels succeeded, what it returns is the metadata of its stories and
    date, both metadata files hold it, and the archive lists the date of
    the run. *)
Theorem returned_run_has_published `{Env} (w : world) (m : Metadata.t) :
  (main w).1 = Return m ->
  exists g comics,
    (exists w1, generate w = (Return g, w1))
    /\ MIN_PANELS_REQUIRED <= successful (panels g)
    /\ m = metadata_of (selected_stories g) (today g)
    /\ fs (main w).2 !! (WEB_OUTPUT_DIR, Metadata.date m +:+ ".json")
       = Some (MetadataJson m)
    /\ fs (main w).2 !! (WEB_OUTPUT_DIR, "latest.json") = Some (MetadataJson m)
    /\ fs (main w).2 !! (WEB_OUTPUT_DIR, "archive.json")
       = Some (ArchiveJson comics)
    /\ Metadata.date m ∈ Archive.date <$> comics.
Proof.
  unfold main, bind.
  destruct (generate w) as [[g|e] w1] eqn:Hgen; [| discriminate].
  destruct (Z_lt_le_dec (successful (panels g)) MIN_PANELS_REQUIRED)
    as [Hfew | Hmin].
  { destruct (publish_below_gate g w1 Hfew) as [msg ->]. discriminate. }
  destruct (publish_world g w1 Hmin) as (_ & _ & Hjson & Hlatest & _ & _).
  rewrite (publish_through_gate g w1 Hmin) in *.
  destruct (update_archive (today g) _) as [[[]|e] w6] eqn:Harchive;
    [| discriminate].
  intros [= <-]. cbn [snd] in *.
  destruct (update_archive_returned _ _ _ Harchive) as (comics & Hfile & Hin).
  exists g, comics. split; [eauto |]. split; [exact Hmin |].
  split; [reflexivity |]. cbn [Metadata.date metadata_of].
  auto.
Qed.

Lemma returned_run_has_published_witness :
  let run := @main Sample.five_of_six Sample.empty_world in
  let m := metadata_of (selected_stories (Sample.generated_in Sample.five_of_six))
                       "2026-01-16" in
  run.1 = Return m
  /\ exists comics,
       fs run.2 !! ("output", "archive.json") = Some (ArchiveJson comics)
       /\ "2026-01-16" ∈ Archive.date <$> comics.
Proof.
  cbv zeta.
  assert (Hret : (@main Sample.five_of_six Sample.empty_world).1
                 = Return (metadata_of
                             (selected_stories
                                (Sample.generated_in Sample.five_of_six))
                             "2026-01-16")) by (vm_compute; reflexivity).
  split; [exact Hret |].
  destruct (@returned_run_has_published Sample.five_of_six _ _ Hret)
    as (g & comics & _ & _ & _ & _ & _ & Hfile & Hin).
  exists comics. split; [exact Hfile | exact Hin].
Defined.

(** A run through the gate that finds an [archive.json] it cannot read
    as an archive raises, but only at its last step: the dated PNG and
    both metadata files are in place by then, and [archive.json] is not
    rewritten. *)
Theorem unreadable_archive_fails_last `{Env} (w w1 : world) (g : generated)
  (c : file) :
  generate w = (Return g, w1) ->
  MIN_PANELS_REQUIRED <= successful (panels g) ->
  fs w1 !! (WEB_OUTPUT_DIR, "archive.json") = Some c ->
  (forall comics, c <> ArchiveJson comics) ->
  let metadata := metadata_of (selected_stories g) (today g) in
  (exists e, (main w).1 = Raise e)
  /\ fs (main w).2 !! (FULLRES_DIR, today g +:+ ".png")
     = Some (PNG (compose_comic_strip (panels g) (today_display g)))
  /\ fs (main w).2 !! (WEB_OUTPUT_DIR, today g +:+ ".json")
     = Some (MetadataJson metadata)
  /\ fs (main w).2 !! (WEB_OUTPUT_DIR, "latest.json")
     = Some (MetadataJson metadata)
  /\ forall comics,
       fs (main w).2 !! (WEB_OUTPUT_DIR, "archive.json")
       <> Some (ArchiveJson comics).
Proof.
  intros Hgen Hmin Hfile Hnot metadata.
  rewrite (main_after_generate w w1 g Hgen).
  destruct (publish_world g w1 Hmin) as (_ & Hpng & Hjson & Hlatest & _ & _).
  rewrite (publish_through_gate g w1 Hmin) in *.
  set (w5 := (update_latest_images (after_dated_writes g w1)).2) in *.
  assert (H5 : exists c5, fs w5 !! (WEB_OUTPUT_DIR, "archive.json") = Some c5
                          /\ forall comics, c5 <> ArchiveJson comics).
  { destruct (update_latest_images_writes (after_dated_writes g w1))
      as (ev & [_ Hfs5] & Hlatest5).
    fold w5 in Hfs5. rewrite Hfs5.
    rewrite replay_lookup_other
      by (apply latest_write_other;
          [discriminate | discriminate | exact Hlatest5]).
    unfold after_dated_writes, dated_writes. cbn [fs replay foldl].
    rewrite lookup_insert_ne by discriminate.
    rewrite lookup_insert. case_decide as Hjs.
    { eexists. split; [reflexivity | discriminate]. }
    rewrite lookup_insert_ne.
    2:{ intros [= Heq]. revert Heq. suffix_differs "archive." ".jpg" "json". }
    rewrite lookup_insert_ne.
    2:{ intros [= _ Heq]. revert Heq. suffix_differs "archive." ".png" "json". }
    eauto. }
  destruct H5 as (c5 & Hfile5 & Hnot5).
  destruct (update_archive_unreadable (today g) w5 c5 Hfile5 Hnot5)
    as (e & Hraise & _).
  rewrite Hraise in *. cbn [fst snd] in *.
  split; [eauto |]. split; [exact Hpng |]. split; [exact Hjson |].
  split; [exact Hlatest |].
  intros comics Heq. rewrite Hfile5 in Heq. injection Heq as ->.
  now apply (Hnot5 comics).
Qed.

Lemma unreadable_archive_fails_last_witness :
  let run := @main Sample.five_of_six Scenario.truncated_archive in
  (exists e, run.1 = Raise e)
  /\ (exists im, fs run.2 !! ("output", "2026-01-16.png") = Some (PNG im))
  /\ fs run.2 !! ("output", "archive.json") = Some (OtherFile "{").
Proof.
  cbv zeta.
  pose (w1 := (@generate Sample.five_of_six Scenario.truncated_archive).2).
  assert (Hgen : @generate Sample.five_of_six Scenario.truncated_archive
                 = (Return (Sample.generated_in Sample.five_of_six), w1))
    by (vm_compute; reflexivity).
  assert (Hfile : fs w1 !! (@WEB_OUTPUT_DIR Sample.five_of_six, "archive.json")
                  = Some (OtherFile "{")) by (vm_compute; reflexivity).
  assert (Hmin : MIN_PANELS_REQUIRED
                 <= successful (panels (Sample.generated_in Sample.five_of_six)))
    by (vm_compute; discriminate).
  destruct (@unreadable_archive_fails_last Sample.five_of_six _ _ _ _
              Hgen Hmin Hfile ltac:(discriminate))
    as (Hraise & Hpng & _ & _ & _).
  split; [exact Hraise |]. split; [eexists; exact Hpng |].
  vm_compute; reflexivity.
Defined.

(* ===================================================================== *)
(** * Further properties: what the selection makes of the indices         *)
(* ===================================================================== *)

Lemma digit_value_nonneg (c : ascii) : isdigit c = true -> 0 <= digit_value c.
Proof.
  unfold isdigit, digit_value. intros Hc.
  apply andb_true_iff in Hc as [Hlo _]. apply N.leb_le in Hlo. lia.
Qed.

(** The parser of the array builds its integers from digits alone: none
    of them is negative. *)
Lemma json_array_nonneg (s : string) : forall st acc indices,
  Forall (fun i => 0 <= i) acc ->
  (forall n, st = InNumber n -> 0 <= n) ->
  json_array st acc s = Return indices ->
  Forall (fun i => 0 <= i) indices.
Proof.
  induction s as [|c s IH]; intros st acc indices Hacc Hst.
  - destruct st; simpl; try discriminate.
    intros [= <-]. now apply Forall_reverse.
  - cbn [json_array].
    assert (Hn : forall n, st = InNumber n -> Forall (fun i => 0 <= i) (n :: acc)).
    { intros n Hn. constructor; [now apply Hst | exact Hacc]. }
    assert (H0 : Forall (fun i => 0 <= i) (0 :: acc)).
    { constructor; [lia | exact Hacc]. }
    destruct st as [| |n| |];
      repeat match goal with
             | |- context [if ?b then _ else _] => destruct b eqn:?
             end;
      try discriminate;
      apply IH;
      first [ exact Hacc | exact H0 | now apply Hn | discriminate
            | intros n' [= <-] ];
      try (now apply digit_value_nonneg).
    pose proof (Hst n eq_refl).
    pose proof (digit_value_nonneg c ltac:(assumption)). lia.
Qed.

Lemma json_loads_nonneg (m : string) (indices : list Z) :
  json_loads m = Return indices -> Forall (fun i => 0 <= i) indices.
Proof.
  unfold json_loads. destruct m as [|c m]; [discriminate |].
  destruct (Ascii.eqb c "["); [| discriminate].
  apply json_array_nonneg; [constructor | discriminate].
Qed.

Lemma getitem_wraps {A : Type} (l : list A) :
  l <> [] -> exists x, getitem l (0 - 1) = Return x /\ last l = Some x.
Proof.
  intros Hne. unfold getitem. change (0 - 1) with (-1).
  change (-1 <? 0) with true. cbv iota.
  assert (Hlen : (length l > 0)%nat)
    by (destruct l; [contradiction | simpl; lia]).
  replace (-1 + Z.of_nat (length l) <? 0) with false
    by (symmetry; apply Z.ltb_ge; lia).
  replace (Z.of_nat (length l) <=? -1 + Z.of_nat (length l))
    with false by (symmetry; apply Z.leb_gt; lia).
  cbn [orb]. rewrite last_lookup.
  replace (Z.to_nat (-1 + Z.of_nat (length l)))
    with (pred (length l)) by lia.
  destruct (l !! pred (length l)) as [x|] eqn:Hx.
  - exists x. split; reflexivity.
  - apply lookup_ge_None in Hx. lia.
Qed.




Lemma comprehension_wraps {A : Type} (l : list A) (indices : list Z) :
  l <> [] ->
  Forall (fun i => 0 <= i <= Z.of_nat (length l)) indices ->
  exists selected,
    comprehension (fun i => getitem l (i - 1)) indices = Return selected
    /\ Forall2 (fun i x => if i =? 0 then last l = Some x
                           else l !! Z.to_nat (i - 1) = Some x)
               indices selected.
Proof.
  intros Hne. induction 1 as [|i indices Hi _ IH]; simpl.
  - exists []. split; [reflexivity | constructor].
  - destruct IH as [selected [-> Hall]].
    destruct (i =? 0) eqn:Hzero.
    + apply Z.eqb_eq in Hzero. subst i.
      destruct (getitem_wraps l Hne) as [x [-> Hx]].
      exists (x :: selected). split; [reflexivity |].
      constructor; [exact Hx | exact Hall].
    + apply Z.eqb_neq in Hzero.
      destruct (getitem_in_range l (i - 1)) as [x [-> Hx]]; [lia |].
      exists (x :: selected). split; [reflexivity |].
      constructor; [| exact Hall].
      apply Z.eqb_neq in Hzero. now rewrite Hzero.
Qed.

(** The model numbers the stories from 1, and the selector subtracts one
    from each index before it looks the story up.  An index 0 therefore
    becomes -1, which Python reads from the end: when the feed is not
    empty and none of the first [NUM_PANELS] indices exceeds the number
    of stories, the selection is returned, with the last story of the
    feed wherever the answer said 0. *)
Theorem index_zero_selects_last_story `{Env} (stories : list Story.t)
  (text m : string) (indices : list Z) (w : world) :
  generate_text (text_calls w) (SelectRequest stories) = Return (Some text) ->
  re_search (strip text) = Some m ->
  json_loads m = Return indices ->
  stories <> [] ->
  Forall (fun i => i <= Z.of_nat (length stories))
         (take (Z.to_nat NUM_PANELS) indices) ->
  exists selected,
    (select_stories stories w).1 = Return selected
    /\ Forall2 (fun i s => if i =? 0 then last stories = Some s
                           else stories !! Z.to_nat (i - 1) = Some s)
               (take (Z.to_nat NUM_PANELS) indices) selected.
Proof.
  intros Hanswer Hsearch Hloads Hne Hrange.
  rewrite select_stories_result, Hanswer, Hsearch, Hloads.
  rewrite slice_to_NUM_PANELS.
  apply comprehension_wraps; [exact Hne |].
  pose proof (json_loads_nonneg m indices Hloads) as Hpos.
  change (Z.to_nat NUM_PANELS) with 6%nat in *.
  apply Forall_and. split; [now apply Forall_take | exact Hrange].
Qed.

Lemma index_zero_selects_last_story_witness :
  let e := Sample.env "Here you go: [0, 2]" (Sample.images []) [] in
  exists selected,
    (@select_stories e Sample.stories Sample.empty_world).1 = Return selected
    /\ Forall2 (fun i s => if i =? 0 then last Sample.stories = Some s
                           else Sample.stories !! Z.to_nat (i - 1) = Some s)
               [0; 2] selected.
Proof.
  cbv zeta.
  apply (@index_zero_selects_last_story
           (Sample.env "Here you go: [0, 2]" (Sample.images []) [])
           Sample.stories "Here you go: [0, 2]" "[0, 2]" [0; 2]
           Sample.empty_world eq_refl eq_refl eq_refl).
  - discriminate.
  - repeat constructor; vm_compute; discriminate.
Defined.



(* ===================================================================== *)
(** * Further properties: what the pattern finds and the parser refuses   *)
(* ===================================================================== *)

(** A whitespace character is neither a digit nor punctuation of the
    array. *)
Lemma isspace_not_array_char (c : ascii) :
  isspace c = true ->
  isdigit c = false /\ Ascii.eqb c "]" = false /\ Ascii.eqb c "," = false
  /\ Ascii.eqb c "0" = false /\ Ascii.eqb c "[" = false.
Proof.
  destruct c as [[] [] [] [] [] [] [] []]; vm_compute; intros Hc;
    first [discriminate Hc | repeat split].
Qed.

Lemma json_array_rejects (c : ascii) (post pre : string) :
  isspace c = true -> json_ws c = false ->
  forall st acc,
    json_array st acc (pre +:+ String c post) = Raise JSONDecodeError.
Proof.
  intros Hspace Hws.
  destruct (isspace_not_array_char c Hspace) as (Hd & Hb & Hc & H0 & _).
  induction pre as [|a pre IH]; intros st acc.
  - change (EmptyString +:+ String c post) with (String c post).
    cbn [json_array]. rewrite Hws, Hd, Hb, Hc, H0.
    destruct st; reflexivity.
  - change (String a pre +:+ String c post)
      with (String a (pre +:+ String c post)).
    cbn [json_array].
    destruct st;
      repeat match goal with
             | |- context [if ?b then _ else _] => destruct b
             end;
      first [reflexivity | apply IH].
Qed.

(** The pattern accepts every whitespace character of Python, JSON only
    four of them.  A matched text that holds one of the others (a form
    feed, a vertical tab, a no-break space, ...) is found by the search
    and refused by the parser: the selection raises, and does not fall
    back on the first stories. *)
Theorem other_whitespace_breaks_selection `{Env} (stories : list Story.t)
  (text pre post : string) (c : ascii) (w : world) :
  generate_text (text_calls w) (SelectRequest stories) = Return (Some text) ->
  re_search (strip text) = Some (pre +:+ String c post) ->
  isspace c = true ->
  json_ws c = false ->
  (select_stories stories w).1 = Raise JSONDecodeError.
Proof.
  intros Hanswer Hsearch Hspace Hws.
  rewrite select_stories_result, Hanswer, Hsearch.
  assert (Hloads : json_loads (pre +:+ String c post) = Raise JSONDecodeError).
  { unfold json_loads. destruct pre as [|a pre].
    - change (EmptyString +:+ String c post) with (String c post).
      cbv beta iota.
      destruct (isspace_not_array_char c Hspace) as (_ & _ & _ & _ & ->).
      reflexivity.
    - change (String a pre +:+ String c post)
        with (String a (pre +:+ String c post)).
      cbv beta iota. destruct (Ascii.eqb a "["); [| reflexivity].
      now apply json_array_rejects. }
  now rewrite Hloads.
Qed.

Lemma other_whitespace_breaks_selection_witness :
  let answer := "[1," +:+ String "160" "2]" in
  let e := Sample.env answer (Sample.images []) [] in
  (@select_stories e Sample.stories Sample.empty_world).1
  = Raise JSONDecodeError.
Proof.
  cbv zeta.
  apply (@other_whitespace_breaks_selection
           (Sample.env ("[1," +:+ String "160" "2]") (Sample.images []) [])
           Sample.stories ("[1," +:+ String "160" "2]") "[1," "2]" "160"
           Sample.empty_world eq_refl eq_refl eq_refl eq_refl).
Defined.

Lemma pretty_N_char_digit (r : N) :
  (r < 10)%N ->
  isdigit (pretty_N_char r) = true
  /\ digit_value (pretty_N_char r) = Z.of_N r
  /\ in_class (pretty_N_char r) = true.
Proof.
  intros Hr.
  assert (Hcases : (r = 0 \/ r = 1 \/ r = 2 \/ r = 3 \/ r = 4 \/ r = 5
                    \/ r = 6 \/ r = 7 \/ r = 8 \/ r = 9)%N) by lia.
  repeat destruct Hcases as [-> | Hcases]; try subst r;
    vm_compute; repeat split.
Qed.

Lemma pretty_N_go_app (x : N) : forall s,
  pretty_N_go x s = pretty_N_go x EmptyString +:+ s.
Proof.
  induction (N.lt_wf_0 x) as [x _ IH]. intros s.
  destruct (decide (0 < x)%N) as [Hx|Hx].
  - rewrite !(pretty_N_go_step x) by exact Hx.
    rewrite (IH (x `div` 10)%N) by (apply N.div_lt; lia).
    rewrite (IH (x `div` 10)%N ltac:(apply N.div_lt; lia) (String _ EmptyString)).
    rewrite append_assoc. reflexivity.
  - replace x with 0%N by lia. rewrite !pretty_N_go_0. reflexivity.
Qed.

(** The parser reads the decimal digits of a positive number back to
    that number. *)
Lemma json_array_reads_number (x : N) : forall s st acc,
  (0 < x)%N ->
  st = ExpectFirst \/ st = ExpectValue ->
  json_array st acc (pretty_N_go x s)
  = json_array (InNumber (Z.of_N x)) acc s.
Proof.
  induction (N.lt_wf_0 x) as [x _ IH]. intros s st acc Hx Hst.
  rewrite pretty_N_go_step by exact Hx.
  destruct (decide (x < 10)%N) as [Hsmall|Hbig].
  - rewrite N.div_small, pretty_N_go_0 by lia. rewrite N.mod_small by lia.
    assert (Hcases : (x = 1 \/ x = 2 \/ x = 3 \/ x = 4 \/ x = 5
                      \/ x = 6 \/ x = 7 \/ x = 8 \/ x = 9)%N) by lia.
    repeat destruct Hcases as [-> | Hcases]; try subst x;
      destruct Hst as [-> | ->]; reflexivity.
  - assert (Hq : (0 < x `div` 10)%N) by (apply N.div_str_pos; lia).
    rewrite (IH (x `div` 10)%N) by (first [apply N.div_lt; lia | assumption]).
    cbn [json_array].
    destruct (pretty_N_char_digit (x `mod` 10)%N) as (-> & -> & _).
    { apply N.mod_lt. discriminate. }
    pose proof (N.div_mod x 10 ltac:(discriminate)) as Hdiv.
    replace (10 * Z.of_N (x `div` 10) + Z.of_N (x `mod` 10)) with (Z.of_N x)
      by lia.
    reflexivity.
Qed.

Lemma all_in_class_app (a b : string) :
  all_in_class (a +:+ b) = all_in_class a && all_in_class b.
Proof.
  induction a as [|c a IH]; [reflexivity |].
  change (String c a +:+ b) with (String c (a +:+ b)). cbn [all_in_class].
  rewrite IH. apply andb_assoc.
Qed.

Lemma all_in_class_digits (x : N) : forall s,
  all_in_class (pretty_N_go x s) = all_in_class s.
Proof.
  induction (N.lt_wf_0 x) as [x _ IH]. intros s.
  destruct (decide (0 < x)%N) as [Hx|Hx].
  - rewrite pretty_N_go_step by exact Hx.
    rewrite IH by (apply N.div_lt; lia). cbn [all_in_class].
    destruct (pretty_N_char_digit (x `mod` 10)%N) as (_ & _ & ->);
      [apply N.mod_lt; discriminate | reflexivity].
  - replace x with 0%N by lia. now rewrite pretty_N_go_0.
Qed.

Lemma str_pos (p : positive) : str (Z.pos p) = pretty_N_go (N.pos p) EmptyString.
Proof. reflexivity. Qed.

Lemma str_all_in_class (i : Z) : 0 <= i -> all_in_class (str i) = true.
Proof.
  destruct i as [|p|p]; [reflexivity | | lia]. intros _.
  rewrite str_pos. now rewrite all_in_class_digits.
Qed.

Lemma str_not_empty (i : Z) : 0 <= i -> exists d run, str i = String d run.
Proof.
  destruct i as [|p|p]; [intros _; now exists "0"%char, EmptyString | | lia].
  intros _. rewrite str_pos, pretty_N_go_step by lia.
  rewrite pretty_N_go_app.
  destruct (pretty_N_go _ EmptyString) as [|d run]; eauto.
Qed.

Lemma json_array_reads_str (i : Z) (s : string) (st : jstate) (acc : list Z) :
  0 <= i ->
  st = ExpectFirst \/ st = ExpectValue ->
  json_array st acc (str i +:+ String "," s) = json_array ExpectValue (i :: acc) s
  /\ json_array st acc (str i +:+ "]") = Return (reverse (i :: acc)).
Proof.
  intros Hi Hst. destruct i as [|p|p]; [| | lia].
  - destruct Hst as [-> | ->]; split; reflexivity.
  - rewrite str_pos, <- !pretty_N_go_app.
    rewrite !json_array_reads_number by (first [lia | assumption]).
    split; reflexivity.
Qed.

Lemma json_array_reads_list (l : list Z) : forall st acc,
  l <> [] ->
  Forall (fun i => 0 <= i) l ->
  st = ExpectFirst \/ st = ExpectValue ->
  json_array st acc (comma_separated l +:+ "]") = Return (reverse acc ++ l).
Proof.
  induction l as [|i l IH]; intros st acc Hne Hall Hst; [contradiction |].
  apply Forall_cons in Hall as [Hi Hall].
  destruct l as [|j l].
  - cbn [comma_separated].
    destruct (json_array_reads_str i EmptyString st acc Hi Hst) as [_ ->].
    now rewrite reverse_cons.
  - change (comma_separated (i :: j :: l))
      with (str i +:+ ", " +:+ comma_separated (j :: l)).
    rewrite !append_assoc.
    change (", " +:+ comma_separated (j :: l) +:+ "]")
      with (String "," (String " " (comma_separated (j :: l) +:+ "]"))).
    destruct (json_array_reads_str i
                (String " " (comma_separated (j :: l) +:+ "]")) st acc Hi Hst)
      as [-> _].
    cbn [json_array]. change (json_ws " ") with true. cbv iota.
    rewrite IH by (first [discriminate | assumption | now right]).
    rewrite reverse_cons, <- app_assoc. reflexivity.
Qed.

Lemma comma_separated_in_class (l : list Z) :
  Forall (fun i => 0 <= i) l -> all_in_class (comma_separated l) = true.
Proof.
  induction 1 as [|i l Hi Hall IH]; [reflexivity |].
  destruct l as [|j l]; [now apply str_all_in_class |].
  change (comma_separated (i :: j :: l))
    with (str i +:+ ", " +:+ comma_separated (j :: l)).
  rewrite !all_in_class_app, IH, str_all_in_class by exact Hi. reflexivity.
Qed.

Lemma comma_separated_not_empty (l : list Z) :
  l <> [] -> Forall (fun i => 0 <= i) l ->
  exists d run, comma_separated l = String d run.
Proof.
  intros Hne Hall. destruct l as [|i l]; [contradiction |].
  apply Forall_cons in Hall as [Hi _].
  destruct (str_not_empty i Hi) as (d & run & Hstr).
  destruct l as [|j l]; [now exists d, run |].
  change (comma_separated (i :: j :: l))
    with (str i +:+ ", " +:+ comma_separated (j :: l)).
  rewrite Hstr. eauto.
Qed.

(** The pattern finds the array text, with nothing around it, and the
    parser reads its integers back. *)
Lemma array_text_is_read_back (indices : list Z) :
  indices <> [] ->
  Forall (fun i => 0 <= i) indices ->
  re_search (array_text indices) = Some (array_text indices)
  /\ json_loads (array_text indices) = Return indices.
Proof.
  intros Hne Hall. split.
  - destruct (comma_separated_not_empty indices Hne Hall) as (d & run & Hrun).
    pose proof (comma_separated_in_class indices Hall) as Hclass.
    unfold array_text. rewrite Hrun in *.
    change ("[" +:+ String d run +:+ "]")
      with (String "[" (String d run +:+ String "]" EmptyString)).
    cbn [re_search match_here]. change (Ascii.eqb "[" "[") with true.
    cbv iota. rewrite (span_class_run (String d run) EmptyString "]" Hclass)
      by reflexivity.
    reflexivity.
  - unfold array_text, json_loads.
    change ("[" +:+ comma_separated indices +:+ "]")
      with (String "[" (comma_separated indices +:+ "]")).
    change (Ascii.eqb "[" "[") with true. cbv iota.
    rewrite json_array_reads_list by (first [assumption | now left]).
    reflexivity.
Qed.

Lemma lstrip_pad (pad s : string) :
  all_space pad = true -> lstrip (pad +:+ s) = lstrip s.
Proof.
  induction pad as [|c pad IH]; [reflexivity |]. cbn [all_space].
  intros Hpad. apply andb_true_iff in Hpad as [Hc Hpad].
  change (String c pad +:+ s) with (String c (pad +:+ s)).
  cbn [lstrip]. rewrite Hc. now apply IH.
Qed.

Lemma rstrip_all_space (pad : string) :
  all_space pad = true -> rstrip pad = EmptyString.
Proof.
  induction pad as [|c pad IH]; [reflexivity |]. cbn [all_space].
  intros Hpad. apply andb_true_iff in Hpad as [Hc Hpad].
  cbn [rstrip]. now rewrite IH, Hc.
Qed.

Lemma rstrip_pad (s pad : string) :
  all_space pad = true -> rstrip (s +:+ pad) = rstrip s.
Proof.
  intros Hpad. induction s as [|c s IH].
  - change (EmptyString +:+ pad) with pad. now apply rstrip_all_space.
  - change (String c s +:+ pad) with (String c (s +:+ pad)).
    cbn [rstrip]. now rewrite IH.
Qed.

Lemma rstrip_ends_dark (s : string) (c : ascii) :
  isspace c = false ->
  rstrip (s +:+ String c EmptyString) = s +:+ String c EmptyString.
Proof.
  intros Hc. induction s as [|a s IH].
  - change (EmptyString +:+ String c EmptyString) with (String c EmptyString).
    cbn [rstrip]. now rewrite Hc.
  - change (String a s +:+ String c EmptyString)
      with (String a (s +:+ String c EmptyString)).
    cbn [rstrip]. rewrite IH.
    destruct s; reflexivity.
Qed.

(** Whitespace around the array text is trimmed away. *)
Lemma strip_padded_array (indices : list Z) (before after : string) :
  all_space before = true -> all_space after = true ->
  strip (before +:+ array_text indices +:+ after) = array_text indices.
Proof.
  intros Hbefore Hafter. unfold strip.
  rewrite lstrip_pad by exact Hbefore.
  unfold array_text.
  change (("[" +:+ comma_separated indices +:+ "]") +:+ after)
    with (String "[" ((comma_separated indices +:+ "]") +:+ after)).
  cbn [lstrip]. change (isspace "[") with false. cbv iota.
  change (String "[" ((comma_separated indices +:+ "]") +:+ after))
    with ((String "[" (comma_separated indices +:+ "]")) +:+ after).
  rewrite rstrip_pad by exact Hafter.
  change (String "[" (comma_separated indices +:+ "]"))
    with ((String "[" (comma_separated indices)) +:+ String "]" EmptyString).
  now apply rstrip_ends_dark.
Qed.

(** An answer of the form the prompt asks for is followed to the letter:
    when the model returns the array of its chosen story numbers, written
    as in the prompt's example and with any whitespace around it, and
    every number names a story of the feed, the selector returns the
    stories with the first [NUM_PANELS] of those numbers, in the order of
    the answer. *)
Theorem well_formed_answer_is_followed `{Env} (stories : list Story.t)
  (indices : list Z) (before after : string) (w : world) :
  generate_text (text_calls w) (SelectRequest stories)
  = Return (Some (before +:+ array_text indices +:+ after)) ->
  all_space before = true ->
  all_space after = true ->
  indices <> [] ->
  Forall (fun i => 1 <= i <= Z.of_nat (length stories)) indices ->
  exists selected,
    (select_stories stories w).1 = Return selected
    /\ length selected = Nat.min (Z.to_nat NUM_PANELS) (length indices)
    /\ Forall2 (fun i s => stories !! Z.to_nat (i - 1) = Some s)
               (take (Z.to_nat NUM_PANELS) indices) selected.
Proof.
  intros Hanswer Hbefore Hafter Hne Hrange.
  assert (Hpos : Forall (fun i => 0 <= i) indices).
  { eapply Forall_impl; [exact Hrange |]. intros i Hi. cbv beta in *. lia. }
  destruct (array_text_is_read_back indices Hne Hpos) as [Hsearch Hloads].
  rewrite select_stories_result, Hanswer.
  rewrite strip_padded_array by assumption.
  rewrite Hsearch, Hloads, slice_to_NUM_PANELS.
  change (Z.to_nat NUM_PANELS) with 6%nat.
  destruct (comprehension_in_range stories (take 6 indices))
    as (selected & Hsel & Hall); [now apply Forall_take |].
  exists selected. split; [exact Hsel |]. split; [| exact Hall].
  rewrite <- (Forall2_length _ _ _ Hall). apply length_take.
Qed.

Lemma well_formed_answer_is_followed_witness :
  let answer := "[3, 7, 1, 8, 5, 2, 4]" +:+ String "010" EmptyString in
  let e := Sample.env answer (Sample.images []) [] in
  exists selected,
    (@select_stories e Sample.stories Sample.empty_world).1 = Return selected
    /\ length selected = 6%nat
    /\ Forall2 (fun i s => Sample.stories !! Z.to_nat (i - 1) = Some s)
               [3; 7; 1; 8; 5; 2] selected.
Proof.
  cbv zeta.
  apply (@well_formed_answer_is_followed
           (Sample.env ("[3, 7, 1, 8, 5, 2, 4]" +:+ String "010" EmptyString)
                       (Sample.images []) [])
           Sample.stories [3; 7; 1; 8; 5; 2; 4] EmptyString
           (String "010" EmptyString) Sample.empty_world
           eq_refl eq_refl eq_refl).
  - discriminate.
  - repeat constructor; vm_compute; discriminate.
Defined.
